(** * Confluence client: retry, backoff and cursor pagination

    A shallow embedding of [backend/onyx/connectors/confluence/onyx_confluence.py]:
    the backoff classifier [_handle_http_error], the retry wrapper
    [handle_confluence_rate_limit], the cursor-paginating fetcher
    [_paginate_url], the nested-expansion resolver of
    [cql_paginate_all_expansions] and the set-up path
    [build_confluence_client].

    Python exceptions are values of [Exn]; a computation that may raise
    returns a sum [Exn + A].  The outside world (HTTP transport, monotonic
    clock, sleeping) is an explicit state threaded through the functions. *)

From Stdlib Require Import ZArith QArith Qround List String Ascii Bool Lia Lqa.
Import ListNotations.
Local Open Scope string_scope.
Local Open Scope Z_scope.
Set Warnings "-register-all".

(* ================================================================== *)
(** ** Python strings *)

Module PyStr.

(** [needle in hay] *)
Fixpoint contains (needle hay : string) : bool :=
  if String.prefix needle hay then true
  else match hay with
       | EmptyString => false
       | String _ rest => contains needle rest
       end.

(** [s.replace(old, new)] for a non-empty [old]: every non-overlapping
    occurrence, leftmost first.  [skip] counts the characters of an
    occurrence that was just replaced and are still to be dropped. *)
Fixpoint replace_from (skip : nat) (old new s : string) : string :=
  match s with
  | EmptyString => EmptyString
  | String c rest =>
      match skip with
      | S k => replace_from k old new rest
      | O =>
          if String.prefix old s
          then new ++ replace_from (String.length old - 1) old new rest
          else String c (replace_from O old new rest)
      end
  end.

Definition replace (old new s : string) : string :=
  match old with
  | EmptyString => s
  | _ => replace_from O old new s
  end.

Definition lower_ascii (c : ascii) : ascii :=
  let n := nat_of_ascii c in
  if (Nat.leb 65 n && Nat.leb n 90)%bool then ascii_of_nat (n + 32) else c.

(** [s.lower()] on the ASCII range. *)
Fixpoint lower (s : string) : string :=
  match s with
  | EmptyString => EmptyString
  | String c rest => String (lower_ascii c) (lower rest)
  end.

Definition digit_char (d : Z) : ascii := ascii_of_nat (48 + Z.to_nat d).

Fixpoint digits_of (fuel : nat) (n : Z) (acc : string) : string :=
  match fuel with
  | O => acc
  | S f =>
      let acc' := String (digit_char (n mod 10)) acc in
      if n <? 10 then acc' else digits_of f (n / 10) acc'
  end.

(** [str(n)] for an integer. *)
Definition str (n : Z) : string :=
  if n <? 0
  then String "-" (digits_of (S (Z.to_nat (Z.log2 (- n)))) (- n) EmptyString)
  else digits_of (S (Z.to_nat (Z.log2 n))) n EmptyString.

Definition is_space (c : ascii) : bool :=
  let n := nat_of_ascii c in
  (Nat.eqb n 32 || (Nat.leb 9 n && Nat.leb n 13) || (Nat.leb 28 n && Nat.leb n 31)
   || Nat.eqb n 133 || Nat.eqb n 160)%bool.

Fixpoint lstrip (s : string) : string :=
  match s with
  | String c rest => if is_space c then lstrip rest else s
  | EmptyString => EmptyString
  end.

Fixpoint rev_acc (s acc : string) : string :=
  match s with
  | EmptyString => acc
  | String c rest => rev_acc rest (String c acc)
  end.

Definition strip (s : string) : string :=
  rev_acc (lstrip (rev_acc (lstrip s) EmptyString)) EmptyString.

Definition digit_val (c : ascii) : option Z :=
  let n := nat_of_ascii c in
  if (Nat.leb 48 n && Nat.leb n 57)%bool then Some (Z.of_nat (n - 48)) else None.

(** Digits with single underscores allowed between two digits.
    [prev] tells whether the previous character was a digit. *)
Fixpoint parse_digits (s : string) (prev : bool) (acc : Z) : option Z :=
  match s with
  | EmptyString => if prev then Some acc else None
  | String c rest =>
      match digit_val c with
      | Some d => parse_digits rest true (10 * acc + d)
      | None =>
          if (Ascii.eqb c "_" && prev)%bool
          then parse_digits rest false acc
          else None
      end
  end.

(** The number of decimal digits of a string. *)
Fixpoint count_digits (s : string) : nat :=
  match s with
  | EmptyString => O
  | String c rest =>
      match digit_val c with
      | Some _ => S (count_digits rest)
      | None => count_digits rest
      end
  end.

(** The interpreter's default bound on the digits of a decimal it converts. *)
Definition MAX_STR_DIGITS : nat := 4300.

(** [int(s)] in base ten: surrounding white space, an optional sign,
    decimal digits, no more than [MAX_STR_DIGITS] of them.  [None] stands
    for [ValueError]. *)
Definition int (s : string) : option Z :=
  let t := strip s in
  if Nat.ltb MAX_STR_DIGITS (count_digits t) then None
  else
    match t with
    | String "-" rest => option_map Z.opp (parse_digits rest false 0)
    | String "+" rest => parse_digits rest false 0
    | t => parse_digits t false 0
    end.

(** Truth value of a string: non-empty. *)
Definition truthy (s : string) : bool :=
  match s with EmptyString => false | _ => true end.

End PyStr.

(* ================================================================== *)
(** ** JSON values, responses and exceptions *)

(** The value of [response.json()]: Python dicts keep insertion order,
    so a JSON object is an association list. *)
Inductive Json : Type :=
| JNull
| JBool (b : bool)
| JNum (n : Z)
| JStr (s : string)
| JList (items : list Json)
| JDict (fields : list (string * Json)).

Definition Headers := list (string * string).

(** [headers.get(name)]: the header mapping of [requests] compares names
    without regard to case. *)
Fixpoint headers_get (name : string) (h : Headers) : option string :=
  match h with
  | [] => None
  | (k, v) :: rest =>
      if String.eqb (PyStr.lower k) (PyStr.lower name) then Some v
      else headers_get name rest
  end.

(** What the code reads of a [requests.Response]. [json = None] is a body
    that [response.json()] fails to decode. *)
Record Response := mkResponse {
  status_code : Z;
  headers : option Headers;
  text : string;
  json : option Json
}.

Inductive Exn : Type :=
| HTTPError (response : option Response)
| AttributeError
| TimeoutError (msg : string)
| JSONDecodeError
| TypeError
| RuntimeError (msg : string)
| KeyError (key : string)
| ConnectorValidationError (msg : string)
| OtherError (msg : string).

(** [str(e)].  The texts of exceptions raised by the interpreter and by
    libraries are not modelled; the class name stands for them. *)
Definition exn_str (e : Exn) : string :=
  match e with
  | HTTPError _ => "HTTPError"
  | AttributeError => "AttributeError"
  | TimeoutError msg => msg
  | JSONDecodeError => "JSONDecodeError"
  | TypeError => "TypeError"
  | RuntimeError msg => msg
  | KeyError key => "'" ++ key ++ "'"
  | ConnectorValidationError msg => msg
  | OtherError msg => msg
  end.

(** A computation that returns an [A] or raises. *)
Definition Result (A : Type) : Type := (Exn + A)%type.
Definition ret {A} (a : A) : Result A := inr a.
Definition raise {A} (e : Exn) : Result A := inl e.

(* ================================================================== *)
(** ** Backoff classifier: [_handle_http_error] *)

Definition RATE_LIMIT_MESSAGE_LOWERCASE : string := PyStr.lower "Rate limit exceeded".

Definition MIN_DELAY : Z := 2.
Definition MAX_DELAY : Z := 60.
Definition STARTING_DELAY : Z := 5.
Definition BACKOFF : Z := 2.

(** The test that lets an HTTP failure through to the backoff computation:
    status 429, or the rate-limit phrase in the lower-cased body. *)
Definition rate_limited (r : Response) : bool :=
  negb (negb (status_code r =? 429)
        && negb (PyStr.contains RATE_LIMIT_MESSAGE_LOWERCASE (PyStr.lower (text r)))).

(** The [retry_after] variable after the header has been looked at. *)
Definition retry_after_of (h : Headers) : option Z :=
  match headers_get "Retry-After" h with
  | None => None
  | Some retry_after_header =>
      match PyStr.int retry_after_header with
      | Some retry_after =>
          let retry_after := if retry_after >? MAX_DELAY then MAX_DELAY else retry_after in
          let retry_after := if retry_after <? MIN_DELAY then MIN_DELAY else retry_after in
          Some retry_after
      | None => None
      end
  end.

(** The [delay] of [_handle_http_error], or the exception re-raised. *)
Definition backoff_delay (e_response : option Response) (attempt : nat) : Result Z :=
  match e_response with
  | None => raise (HTTPError e_response)
  | Some r =>
      match headers r with
      | None => raise (HTTPError e_response)
      | Some h =>
          if negb (rate_limited r) then raise (HTTPError e_response)
          else
            match retry_after_of h with
            | Some retry_after => ret retry_after
            | None => ret (Z.min (STARTING_DELAY * BACKOFF ^ Z.of_nat attempt) MAX_DELAY)
            end
      end
  end.

(** [math.ceil(time.monotonic() + delay)], with the clock reading [now].
    The sum is taken exactly; the interpreter adds in double precision, so
    the two agree as long as the sum is representable. *)
Definition _handle_http_error (e_response : option Response) (attempt : nat) (now : Q)
  : Result Z :=
  match backoff_delay e_response attempt with
  | inl e => raise e
  | inr delay => ret (Qceiling (now + inject_Z delay))
  end.

(* ================================================================== *)
(** ** Method retry wrapper: [handle_confluence_rate_limit] *)

(** The clock of the process: [time.monotonic()] reads it and
    [time.sleep(seconds)] moves the world forward. *)
Class Clock (World : Type) := {
  monotonic : World -> Q;
  sleep : Z -> World -> World
}.

Definition Qltb (a b : Q) : bool := negb (Qle_bool b a).

Definition MAX_RETRIES : nat := 5.
Definition TIMEOUT : Z := 600.

(** [range(n)] *)
Definition range (n : nat) : list nat := seq 0 n.

(** How a wrapped call ends. [ReturnedNone] is the fall-through at the end
    of [wrapped_call]; [Diverged] is a polling loop that used up its fuel. *)
Inductive Outcome (A : Type) : Type :=
| Returned (v : A)
| ReturnedNone
| Raised (e : Exn)
| Diverged.
Arguments Returned {A} v.
Arguments ReturnedNone {A}.
Arguments Raised {A} e.
Arguments Diverged {A}.

(** A run of the wrapper: how it ended, the result of every attempt of the
    wrapped call in order, and the world it left. *)
Record Run (World A : Type) := mkRun {
  outcome : Outcome A;
  attempts : list (Result A);
  final : World
}.
Arguments mkRun {World A}.
Arguments outcome {World A}.
Arguments attempts {World A}.
Arguments final {World A}.

Section RetryWrapper.
Context {World : Type} {clock : Clock World} {A : Type}.

(** The wrapped method with its arguments applied: one attempt of the
    call in the current world. *)
Variable confluence_call : World -> Result A * World.

(** [while time.monotonic() < delay_until: time.sleep(1)] *)
Fixpoint sleep_until (fuel : nat) (delay_until : Z) (w : World) : option World :=
  match fuel with
  | O => None
  | S f =>
      if Qltb (monotonic w) (inject_Z delay_until)
      then sleep_until f delay_until (sleep 1 w)
      else Some w
  end.

Definition logged (r : Result A) (run : Run World A) : Run World A :=
  mkRun (outcome run) (r :: attempts run) (final run).

(** The body of [for attempt in range(MAX_RETRIES)], over the attempt
    indices still to come. *)
Fixpoint retry_loop (fuel : nat) (timeout_at : Q) (todo : list nat) (w : World)
  : Run World A :=
  match todo with
  | [] => mkRun ReturnedNone [] w
  | attempt :: rest =>
      if Qltb timeout_at (monotonic w)
      then mkRun (Raised (TimeoutError
                    ("Confluence call attempts took longer than "
                       ++ PyStr.str TIMEOUT ++ " seconds."))) [] w
      else
        let (r, w1) := confluence_call w in
        logged r
          match r with
          | inr v => mkRun (Returned v) [] w1
          | inl (HTTPError response) =>
              match _handle_http_error response attempt (monotonic w1) with
              | inl e => mkRun (Raised e) [] w1
              | inr delay_until =>
                  match sleep_until fuel delay_until w1 with
                  | None => mkRun Diverged [] w1
                  | Some w2 => retry_loop fuel timeout_at rest w2
                  end
              end
          | inl AttributeError =>
              if Nat.eqb attempt (MAX_RETRIES - 1)
              then mkRun (Raised AttributeError) [] w1
              else retry_loop fuel timeout_at rest (sleep 5 w1)
          | inl e => mkRun (Raised e) [] w1
          end
  end.

Definition wrapped_call (fuel : nat) (w : World) : Run World A :=
  let timeout_at := (monotonic w + inject_Z TIMEOUT)%Q in
  retry_loop fuel timeout_at (range MAX_RETRIES) w.

(** The decorator gives [wrapped_call] back in place of the method. *)
Definition handle_confluence_rate_limit : nat -> World -> Run World A :=
  wrapped_call.

End RetryWrapper.

(* ================================================================== *)
(** ** Cursor-paginating fetcher: [_paginate_url] *)

Definition _PROBLEMATIC_EXPANSIONS : string := "body.storage.value".
Definition _REPLACEMENT_EXPANSIONS : string := "body.view.value".

Definition _DEFAULT_PAGINATION_LIMIT : Z := 1000.
Definition _MINIMUM_PAGINATION_LIMIT : Z := 50.

(** The two helpers imported from [onyx.connectors.confluence.utils], whose
    source is not part of the files at hand: the fetcher is defined over
    any implementation of them. *)
Class UrlUtils := {
  get_start_param_from_url : string -> Z;
  update_param_in_path : string -> string -> string -> string
}.

(** [self.get(path=url_suffix, advanced_mode=True)]: the raw response, or
    the exception the transport raises. *)
Class Transport (World : Type) := {
  http_get : World -> string -> Result Response * World
}.

(** [d.get(key)] on a JSON object. *)
Fixpoint dict_get (key : string) (fields : list (string * Json)) : option Json :=
  match fields with
  | [] => None
  | (k, v) :: rest => if String.eqb k key then Some v else dict_get key rest
  end.

(** ["key" in d] *)
Definition dict_has (key : string) (fields : list (string * Json)) : bool :=
  match dict_get key fields with Some _ => true | None => false end.

(** [Response.raise_for_status()] of [requests]: an [HTTPError] carrying
    the response for every 4xx and 5xx status. *)
Definition raise_for_status (r : Response) : option Exn :=
  if (400 <=? status_code r) && (status_code r <? 600)
  then Some (HTTPError (Some r)) else None.

(** Truth value of a JSON value, as [if v] tests it. *)
Definition json_truthy (v : Json) : bool :=
  match v with
  | JNull => false
  | JBool b => b
  | JNum n => negb (n =? 0)
  | JStr s => PyStr.truthy s
  | JList items => match items with [] => false | _ => true end
  | JDict fields => match fields with [] => false | _ => true end
  end.

(** The characters of a string, each a string of its own: what iterating
    over a string yields. *)
Fixpoint chars_of (s : string) : list Json :=
  match s with
  | EmptyString => []
  | String c rest => JStr (String c EmptyString) :: chars_of rest
  end.

(** [cast(list[dict[str, Any]], next_response.get("results", []))], as
    [yield from results] and [len(results)] see it.  The cast checks
    nothing: a string is iterated character by character, a mapping key by
    key, and only a value that cannot be iterated (null, a number, a
    boolean) is a [TypeError].  A body that is not an object has no
    [get]. *)
Definition page_results (next_response : Json) : Result (list Json) :=
  match next_response with
  | JDict fields =>
      match dict_get "results" fields with
      | None => ret []
      | Some (JList results) => ret results
      | Some (JStr s) => ret (chars_of s)
      | Some (JDict entries) => ret (map (fun kv => JStr (fst kv)) entries)
      | Some _ => raise TypeError
      end
  | _ => raise AttributeError
  end.

(** [cast(str, next_response.get("_links", {}).get("next", ""))], as the
    tests [if url_suffix and "start" in url_suffix] and [while url_suffix]
    see it.  The cast checks nothing: every falsy link (null, zero, false,
    an empty list or mapping) ends the retrieval as the empty string does;
    a number or boolean that is truthy fails the membership test with a
    [TypeError].  A truthy list or mapping is no path the transport can be
    asked for; the model stops there with the same error. *)
Definition page_next (next_response : Json) : Result string :=
  match next_response with
  | JDict fields =>
      match dict_get "_links" fields with
      | None => ret ""
      | Some (JDict links) =>
          match dict_get "next" links with
          | None => ret ""
          | Some (JStr next) => ret next
          | Some v => if json_truthy v then raise TypeError else ret ""
          end
      | Some _ => raise AttributeError
      end
  | _ => raise AttributeError
  end.

(** The variables the [while] loop of [_paginate_url] carries around. *)
Record PageState := mkPageState {
  url_suffix : string;
  limit : Z
}.

(** One pass through the loop body, after the GET: go round again without
    a page ([Again]), yield a page and move to the next cursor ([Page]),
    or raise, possibly after yielding ([Stop]). *)
Inductive Step : Type :=
| Again (st : PageState)
| Page (results : list Json) (st : PageState)
| Stop (results : list Json) (e : Exn).

Definition len {A} (l : list A) : Z := Z.of_nat (List.length l).

Section Fetcher.
Context {utils : UrlUtils}.

(** The cursor for the next request, from the one of this request, the
    results of the page and the server's next link. *)
Definition next_cursor (auto_paginate : bool) (old_url_suffix : string)
           (results : list Json) (next : string) : string :=
  let url_suffix := next in
  let url_suffix :=
    if PyStr.truthy url_suffix && PyStr.contains "start" url_suffix
    then
      let new_start := get_start_param_from_url url_suffix in
      let previous_start := get_start_param_from_url old_url_suffix in
      if new_start - previous_start >? len results
      then
        let adjusted_start := previous_start + len results in
        update_param_in_path url_suffix "start" (PyStr.str adjusted_start)
      else url_suffix
    else url_suffix in
  if auto_paginate && (len results >? 0)
  then
    let previous_start := get_start_param_from_url old_url_suffix in
    let updated_start := previous_start + len results in
    update_param_in_path old_url_suffix "start" (PyStr.str updated_start)
  else url_suffix.

Definition loop_body (auto_paginate : bool) (st : PageState)
           (got : Result Response) : Step :=
  match got with
  | inl e => Stop [] e
  | inr raw_response =>
      match raise_for_status raw_response with
      | Some e =>
          if PyStr.contains _PROBLEMATIC_EXPANSIONS (url_suffix st)
          then Again (mkPageState
                        (PyStr.replace _PROBLEMATIC_EXPANSIONS
                           _REPLACEMENT_EXPANSIONS (url_suffix st))
                        (limit st))
          else if (status_code raw_response =? 500)
                  && (limit st >? _MINIMUM_PAGINATION_LIMIT)
          then
            let new_limit := limit st / 2 in
            Again (mkPageState
                     (PyStr.replace ("limit=" ++ PyStr.str (limit st))
                        ("limit=" ++ PyStr.str new_limit) (url_suffix st))
                     new_limit)
          else Stop [] e
      | None =>
          match json raw_response with
          | None => Stop [] JSONDecodeError
          | Some next_response =>
              match page_results next_response with
              | inl e => Stop [] e
              | inr results =>
                  match page_next next_response with
                  | inl e => Stop results e
                  | inr next =>
                      Page results
                        (mkPageState
                           (next_cursor auto_paginate (url_suffix st) results next)
                           (limit st))
                  end
              end
          end
      end
  end.

End Fetcher.

(** How a retrieval ends: the cursor ran empty, an exception came out of
    the generator, or the loop was cut by the fuel of the model. *)
Inductive Ending : Type :=
| Done
| Failed (e : Exn)
| OutOfFuel.

(** A retrieval consumed to its end: the records yielded, the loop state
    at every GET, the ending and the world left behind. *)
Record Fetch (World : Type) := mkFetch {
  yielded : list Json;
  requests : list PageState;
  ending : Ending;
  world : World
}.
Arguments mkFetch {World}.
Arguments yielded {World}.
Arguments requests {World}.
Arguments ending {World}.
Arguments world {World}.

Section Pagination.
Context {World : Type} {transport : Transport World} {utils : UrlUtils}.

Definition emit (st : PageState) (results : list Json) (f : Fetch World)
  : Fetch World :=
  mkFetch (results ++ yielded f) (st :: requests f) (ending f) (world f).

(** [while url_suffix: ...] *)
Fixpoint fetch_loop (fuel : nat) (auto_paginate : bool) (st : PageState)
         (w : World) : Fetch World :=
  if negb (PyStr.truthy (url_suffix st)) then mkFetch [] [] Done w
  else
    match fuel with
    | O => mkFetch [] [] OutOfFuel w
    | S f =>
        let (got, w1) := http_get w (url_suffix st) in
        match loop_body auto_paginate st got with
        | Again st' => emit st [] (fetch_loop f auto_paginate st' w1)
        | Page results st' => emit st results (fetch_loop f auto_paginate st' w1)
        | Stop results e => mkFetch results [st] (Failed e) w1
        end
    end.

(** The state the loop starts in: [if not limit] takes the default for
    [None] and for [0]; the limit is appended to the URL. *)
Definition initial_state (url_suffix : string) (limit : option Z) : PageState :=
  let limit :=
    match limit with
    | None => _DEFAULT_PAGINATION_LIMIT
    | Some l => if l =? 0 then _DEFAULT_PAGINATION_LIMIT else l
    end in
  let connection_char := if PyStr.contains "?" url_suffix then "&" else "?" in
  mkPageState (url_suffix ++ connection_char ++ "limit=" ++ PyStr.str limit) limit.

Definition _paginate_url (fuel : nat) (url_suffix : string) (limit : option Z)
           (auto_paginate : bool) (w : World) : Fetch World :=
  fetch_loop fuel auto_paginate (initial_state url_suffix limit) w.

End Pagination.

(* ================================================================== *)
(** ** Nested-expansion resolver: [_traverse_and_update] *)

(** A computation in the world that returns, raises or runs out of the
    fuel of the model. *)
Inductive Eff (World A : Type) : Type :=
| Ok (a : A) (w : World)
| Err (e : Exn) (w : World)
| Fuel.
Arguments Ok {World A} a w.
Arguments Err {World A} e w.
Arguments Fuel {World A}.

Definition bind {World A B} (m : Eff World A) (k : A -> World -> Eff World B)
  : Eff World B :=
  match m with
  | Ok a w => k a w
  | Err e w => Err e w
  | Fuel => Fuel
  end.

Notation "' x , w <- m ;; k" := (bind m (fun x w => k))
  (at level 61, x name, w name, m at next level, right associativity).

Definition opt_truthy (v : option Json) : bool :=
  match v with Some j => json_truthy j | None => false end.

(** [data.get("_links", {}).get("next")]; a "_links" entry that is not an
    object has no [get]. *)
Definition next_link (fields : list (string * Json)) : Result (option Json) :=
  match dict_get "_links" fields with
  | None => ret None
  | Some (JDict links) => ret (dict_get "next" links)
  | Some _ => raise AttributeError
  end.

(** The entry under [key] replaced where it stands: the list object under
    "results" is extended in place, the object keeps its order. *)
Fixpoint dict_set (key : string) (v : Json) (fields : list (string * Json))
  : list (string * Json) :=
  match fields with
  | [] => []
  | (k, old) :: rest =>
      if String.eqb k key then (k, v) :: rest else (k, old) :: dict_set key v rest
  end.

Section Resolver.
Context {World : Type} {transport : Transport World} {utils : UrlUtils}.

(** [for value in data.values(): visit(value)] *)
Fixpoint each_value (visit : Json -> World -> Eff World Json)
         (fields : list (string * Json)) (w : World)
  : Eff World (list (string * Json)) :=
  match fields with
  | [] => Ok [] w
  | (k, value) :: rest =>
      ' value', w1 <- visit value w ;;
      ' rest', w2 <- each_value visit rest w1 ;;
      Ok ((k, value') :: rest') w2
  end.

(** [for item in data: visit(item)] *)
Fixpoint each_item (visit : Json -> World -> Eff World Json)
         (items : list Json) (w : World) : Eff World (list Json) :=
  match items with
  | [] => Ok [] w
  | item :: rest =>
      ' item', w1 <- visit item w ;;
      ' rest', w2 <- each_item visit rest w1 ;;
      Ok (item' :: rest') w2
  end.

(** [data["results"].extend(self._paginate_url(next_url))]: the target's
    [extend] is looked up first, then the generator is consumed. *)
Definition extend_results (fuel : nat) (next_url : option Json)
           (fields : list (string * Json)) (w : World)
  : Eff World (list (string * Json)) :=
  match dict_get "results" fields with
  | Some (JList results) =>
      match next_url with
      | Some (JStr url) =>
          let fetched := _paginate_url fuel url None false w in
          match ending fetched with
          | Done =>
              Ok (dict_set "results" (JList (results ++ yielded fetched)) fields)
                 (world fetched)
          | Failed e => Err e (world fetched)
          | OutOfFuel => Fuel
          end
      | _ => Err TypeError w
      end
  | _ => Err AttributeError w
  end.

(** The record after the walk; Python updates it in place. The fuel
    bounds the depth of the walk and the length of every retrieval. *)
Fixpoint _traverse_and_update (fuel : nat) (data : Json) (w : World)
  : Eff World Json :=
  match fuel with
  | O => Fuel
  | S f =>
      match data with
      | JDict fields =>
          match next_link fields with
          | inl e => Err e w
          | inr next_url =>
              ' fields1, w1 <-
                (if opt_truthy next_url && dict_has "results" fields
                 then extend_results f next_url fields w
                 else Ok fields w) ;;
              ' fields2, w2 <- each_value (_traverse_and_update f) fields1 w1 ;;
              Ok (JDict fields2) w2
          end
      | JList items =>
          ' items', w1 <- each_item (_traverse_and_update f) items w ;;
          Ok (JList items') w1
      | _ => Ok data w
      end
  end.

End Resolver.

(** Some mapping of the record carries a non-empty continuation link. *)
Fixpoint has_next_link (data : Json) : bool :=
  match data with
  | JDict fields =>
      match next_link fields with
      | inr next_url => opt_truthy next_url
      | inl _ => false
      end
      || (fix any (l : list (string * Json)) : bool :=
            match l with
            | [] => false
            | (_, v) :: rest => has_next_link v || any rest
            end) fields
  | JList items =>
      (fix any (l : list Json) : bool :=
         match l with
         | [] => false
         | v :: rest => has_next_link v || any rest
         end) items
  | _ => false
  end.

(** Nothing is left for the resolver to do: every "_links" entry is an
    object, and no mapping has both a non-empty continuation link and a
    "results" entry. *)
Fixpoint settled (data : Json) : bool :=
  match data with
  | JDict fields =>
      match next_link fields with
      | inr next_url => negb (opt_truthy next_url && dict_has "results" fields)
      | inl _ => false
      end
      && (fix all (l : list (string * Json)) : bool :=
            match l with
            | [] => true
            | (_, v) :: rest => settled v && all rest
            end) fields
  | JList items =>
      (fix all (l : list Json) : bool :=
         match l with
         | [] => true
         | v :: rest => settled v && all rest
         end) items
  | _ => true
  end.

(** Nesting depth of a record. *)
Fixpoint depth (data : Json) : nat :=
  match data with
  | JDict fields =>
      S ((fix most (l : list (string * Json)) : nat :=
            match l with
            | [] => O
            | (_, v) :: rest => Nat.max (depth v) (most rest)
            end) fields)
  | JList items =>
      S ((fix most (l : list Json) : nat :=
            match l with
            | [] => O
            | v :: rest => Nat.max (depth v) (most rest)
            end) items)
  | _ => O
  end.

(* ================================================================== *)
(** ** Set-up: [_validate_connector_configuration], [build_confluence_client] *)

(** The keyword arguments a client is constructed with. [cloud] is given
    to the production client only. *)
Record ClientConfig := mkClientConfig {
  api_version : string;
  url : string;
  username : option string;
  password : option string;
  token : option string;
  backoff_and_retry : bool;
  max_backoff_retries : Z;
  max_backoff_seconds : Z;
  cloud : option bool
}.

(** [client.get_all_spaces(limit=...)] of the third-party client built
    from a configuration. *)
Class SpaceApi (World : Type) := {
  get_all_spaces : ClientConfig -> Z -> World -> Result Json * World
}.

Definition option_map_result {A} (r : Result A) : Result (option A) :=
  match r with
  | inl e => inl e
  | inr a => inr (Some a)
  end.

(** [credentials[key]] *)
Fixpoint subscript (key : string) (credentials : list (string * string))
  : Result string :=
  match credentials with
  | [] => raise (KeyError key)
  | (k, v) :: rest => if String.eqb k key then ret v else subscript key rest
  end.

Fixpoint lstrip_char (c : ascii) (s : string) : string :=
  match s with
  | String c' rest => if Ascii.eqb c' c then lstrip_char c rest else s
  | EmptyString => EmptyString
  end.

(** [s.rstrip("/")] *)
Definition rstrip_slash (s : string) : string :=
  PyStr.rev_acc (lstrip_char "/" (PyStr.rev_acc s EmptyString)) EmptyString.

(** The keyword arguments shared by the two constructor calls, evaluated
    in the order they are written. *)
Definition client_config (credentials : list (string * string)) (is_cloud : bool)
           (wiki_base : string) (retries seconds : Z) (cloud : option bool)
  : Result ClientConfig :=
  let api_version := if is_cloud then "cloud" else "latest" in
  let url := rstrip_slash wiki_base in
  match (if is_cloud
         then option_map_result (subscript "confluence_username" credentials)
         else ret None)
  with
  | inl e => raise e
  | inr username =>
      match (if is_cloud
             then option_map_result (subscript "confluence_access_token" credentials)
             else ret None)
      with
      | inl e => raise e
      | inr password =>
          match (if negb is_cloud
                 then option_map_result (subscript "confluence_access_token" credentials)
                 else ret None)
          with
          | inl e => raise e
          | inr token =>
              ret (mkClientConfig api_version url username password token
                     true retries seconds cloud)
          end
      end
  end.

Section Setup.
Context {World : Type} {api : SpaceApi World}.

Definition _validate_connector_configuration
           (credentials : list (string * string)) (is_cloud : bool)
           (wiki_base : string) (w : World) : Result unit * World :=
  match client_config credentials is_cloud wiki_base 6 10 None with
  | inl e => (raise e, w)
  | inr confluence_client_with_minimal_retries =>
      let (got, w1) := get_all_spaces confluence_client_with_minimal_retries 1 w in
      match got with
      | inl e => (raise e, w1)
      | inr spaces =>
          if negb (json_truthy spaces)
          then (raise (RuntimeError
                         ("No spaces found at " ++ wiki_base ++ "! "
                            ++ "Check your credentials and wiki_base and make sure "
                            ++ "is_cloud is set correctly.")), w1)
          else (ret tt, w1)
      end
  end.

(** The production client is the configuration [OnyxConfluence] is
    constructed with. *)
Definition build_confluence_client
           (credentials : list (string * string)) (is_cloud : bool)
           (wiki_base : string) (w : World) : Result ClientConfig * World :=
  match _validate_connector_configuration credentials is_cloud wiki_base w with
  | (inl e, w1) => (raise (ConnectorValidationError (exn_str e)), w1)
  | (inr _, w1) =>
      (client_config credentials is_cloud wiki_base 10 60 (Some is_cloud), w1)
  end.

End Setup.

(* ================================================================== *)
(** ** Concrete environments *)

Module UrlModel.

(** [s.split(sep)] for a one-character separator. *)
Fixpoint split (sep : ascii) (s : string) : list string :=
  match s with
  | EmptyString => [EmptyString]
  | String c rest =>
      if Ascii.eqb c sep then EmptyString :: split sep rest
      else match split sep rest with
           | [] => [String c EmptyString]
           | first :: others => String c first :: others
           end
  end.

(** The part before the first [sep] and, when there is one, the part
    after it. *)
Fixpoint partition (sep : ascii) (s : string) : string * option string :=
  match s with
  | EmptyString => (EmptyString, None)
  | String c rest =>
      if Ascii.eqb c sep then (EmptyString, Some rest)
      else let (before, after) := partition sep rest in (String c before, after)
  end.

Definition query_params (url : string) : list (string * string) :=
  match snd (partition "?" url) with
  | None => []
  | Some query =>
      map (fun kv => let (k, v) := partition "=" kv in
                     (k, match v with Some v => v | None => EmptyString end))
          (split "&" query)
  end.

Fixpoint param (key : string) (params : list (string * string)) : option string :=
  match params with
  | [] => None
  | (k, v) :: rest => if String.eqb k key then Some v else param key rest
  end.

Fixpoint set_param (key value : string) (params : list (string * string))
  : list (string * string) :=
  match params with
  | [] => [(key, value)]
  | (k, v) :: rest =>
      if String.eqb k key then (k, value) :: rest
      else (k, v) :: set_param key value rest
  end.

Fixpoint join_params (params : list (string * string)) : string :=
  match params with
  | [] => EmptyString
  | [(k, v)] => k ++ "=" ++ v
  | (k, v) :: rest => k ++ "=" ++ v ++ "&" ++ join_params rest
  end.

(** Modelled from the spec: [get_start_param_from_url] of
    [onyx.connectors.confluence.utils], whose source is missing. A
    cursor is "a URL fragment carrying a start offset and other query
    parameters"; a URL without a readable offset starts at 0. *)
Definition get_start (url : string) : Z :=
  match param "start" (query_params url) with
  | Some v => match PyStr.int v with Some n => n | None => 0 end
  | None => 0
  end.

(** Modelled from the spec: [update_param_in_path] of
    [onyx.connectors.confluence.utils], whose source is missing. It
    "rewrites the cursor": the named query parameter is set to the
    value, the other parameters are kept. *)
Definition update_param (path name value : string) : string :=
  fst (partition "?" path) ++ "?"
    ++ join_params (set_param name value (query_params path)).

End UrlModel.

#[local] Instance url_model : UrlUtils := {
  get_start_param_from_url := UrlModel.get_start;
  update_param_in_path := UrlModel.update_param
}.

(** A scripted server: each GET is answered by the next response of the
    script, whatever the URL asked for. *)
Definition Script := list (Result Response).

#[local] Instance scripted : Transport Script := {
  http_get w _ :=
    match w with
    | [] => (raise (OtherError "connection refused"), [])
    | r :: rest => (r, rest)
    end
}.

Definition ok_page (results : list Json) (next : option string) : Response :=
  mkResponse 200 (Some []) ""
    (Some (JDict (("results", JList results)
                    :: match next with
                       | Some link => [("_links", JDict [("next", JStr link)])]
                       | None => []
                       end))).

Definition error_page (status : Z) : Response :=
  mkResponse status (Some []) "" None.

(** A controllable clock with a scripted method: every call takes the
    scripted number of seconds and gives the scripted result; sleeping
    takes exactly the time asked for. *)
Record Timed (A : Type) := mkTimed {
  now : Q;
  script : list (Q * Result A)
}.
Arguments mkTimed {A}.
Arguments now {A}.
Arguments script {A}.

#[local] Instance timed_clock {A} : Clock (Timed A) := {
  monotonic w := now w;
  sleep seconds w := mkTimed (now w + inject_Z seconds)%Q (script w)
}.

Definition timed_call {A} (w : Timed A) : Result A * Timed A :=
  match script w with
  | [] => (raise (OtherError "connection refused"), w)
  | (took, r) :: rest => (r, mkTimed (now w + took)%Q rest)
  end.

Definition too_many_requests (retry_after : option string) : Response :=
  mkResponse 429
    (Some match retry_after with
          | Some v => [("Retry-After", v)]
          | None => []
          end)
    "Rate limit exceeded" None.

(** A site whose space listing always gives the same answer. *)
#[local] Instance fixed_spaces (answer : Result Json) : SpaceApi nat := {
  get_all_spaces _ _ calls := (answer, S calls)
}.

(** A method that answers 429 without a Retry-After header five times,
    each call taking [took] seconds. *)
Definition always_limited (took : Q) : Timed unit :=
  mkTimed 0 (repeat (took, inl (HTTPError (Some (too_many_requests None)))) 5).

(** The world of [always_limited 700] when the second attempt is about to
    start: one call of 700 seconds and a backoff of 5 seconds have passed. *)
Definition after_first_slow_attempt : Timed unit :=
  mkTimed 705 (repeat (700%Q, inl (HTTPError (Some (too_many_requests None)))) 4).

(** The first request of a content search with the default limit. *)
Definition content_search : PageState :=
  initial_state "rest/api/content/search?cql=type=page" None.

(** The first request of the cloud user search, the endpoint paged with
    [auto_paginate=True]. *)
Definition user_search : PageState :=
  initial_state "rest/api/search/user?cql=type=user" None.

(** Two records, and a next link that skips to offset 5. *)
Definition over_advancing_page : Response :=
  ok_page [JDict [("id", JStr "1")]; JDict [("id", JStr "2")]]
          (Some "rest/api/content/search?cql=type=page&start=5&limit=1000").

(** No records, and a next link all the same. *)
Definition empty_page_with_cursor : Response :=
  ok_page [] (Some "rest/api/search/user?cursor=abc").

(** A record whose list of one comment is truncated, with the link to
    the rest of it. *)
Definition truncated_record : Json :=
  JDict [("results", JList [JDict [("id", JStr "1")]]);
         ("_links", JDict [("next", JStr "rest/api/content/7/child/comment?start=1")])].

(** The last page of those comments. *)
Definition last_comment_page : Response := ok_page [JDict [("id", JStr "2")]] None.

(* ================================================================== *)
(** ** Vocabulary of the properties *)

(** [clamp x lo hi]: [x] brought into the interval from [lo] to [hi]. *)
Definition clamp (x lo hi : Z) : Z := Z.max lo (Z.min x hi).

(** The classification of the specification: status 429, or the phrase
    in the lower-cased body. *)
Definition rate_limit_classified (r : Response) : Prop :=
  status_code r = 429
  \/ PyStr.contains RATE_LIMIT_MESSAGE_LOWERCASE (PyStr.lower (text r)) = true.

(** An attempt that failed with an HTTP error the classifier turns into
    a backoff: response and headers present, status 429 or the phrase. *)
Definition rate_limit_failure {A} (r : Result A) : bool :=
  match r with
  | inl (HTTPError (Some response)) =>
      match headers response with
      | Some _ => rate_limited response
      | None => false
      end
  | _ => false
  end.

Definition timeout_error : Exn :=
  TimeoutError "Confluence call attempts took longer than 600 seconds.".

(** Successive limits of a retrieval: each is the one before it, or the
    half of one before it that exceeded the minimum. *)
Fixpoint halving_chain (previous : Z) (limits : list Z) : Prop :=
  match limits with
  | [] => True
  | l :: rest =>
      (l = previous \/ (_MINIMUM_PAGINATION_LIMIT < previous /\ l = previous / 2))
      /\ halving_chain l rest
  end.

(** What a site without any space answers to the listing of one space:
    a page of no results. *)
Definition empty_space_listing : Json :=
  JDict [("results", JList []); ("start", JNum 0); ("limit", JNum 1); ("size", JNum 0)].

Definition cloud_credentials : list (string * string) :=
  [("confluence_username", "admin@example.com"); ("confluence_access_token", "secret")].

(** A failure after which the wrapper goes on to the next attempt: a
    rate-limit failure, or an [AttributeError] of the client library. *)
Definition retryable {A} (r : Result A) : bool :=
  rate_limit_failure r
  || match r with
     | inl AttributeError => true
     | _ => false
     end.

(** An outcome that hands no value to the caller. *)
Definition no_value {A} (o : Outcome A) : Prop :=
  match o with
  | Returned _ => False
  | _ => True
  end.


(** A method that fails five times inside the client library. *)
Definition attribute_errors : Timed unit :=
  mkTimed 0 (repeat (1%Q, inl AttributeError) 5).

(** A method that answers 500 once. *)
Definition server_error_once : Timed unit :=
  mkTimed 0 [(1%Q, inl (HTTPError (Some (error_page 500))))].

(** An idle world, and the same world five sleeps of a second later. *)
Definition idle : Timed unit := mkTimed 0 [].
Definition idle_after_wait : Timed unit :=
  Eval vm_compute in
    match sleep_until 10 5 idle with
    | Some w => w
    | None => idle
    end.

(** How many times the limit went down along the requests of a retrieval. *)
Fixpoint halvings (previous : Z) (limits : list Z) : nat :=
  match limits with
  | [] => O
  | l :: rest => (if l <? previous then S (halvings l rest) else halvings l rest)
  end.

(** The character does not occur in the string. *)
Fixpoint lacks (c : ascii) (s : string) : bool :=
  match s with
  | EmptyString => true
  | String x rest => negb (Ascii.eqb x c) && lacks c rest
  end.

(** The answers of a server to successive GETs: for every page its
    records and its next link. *)
Definition served (pages : list (list Json * option string)) : Script :=
  map (fun page => inr (ok_page (fst page) (snd page))) pages.

(** The URLs at which the pages are asked for, from the first one. *)
Fixpoint request_urls (cursor : string) (pages : list (list Json * option string))
  : list string :=
  match pages with
  | [] => []
  | (_, next) :: more =>
      cursor :: request_urls (match next with Some link => link | None => "" end) more
  end.

(** A server whose every answer is the same page. *)
Definition same_page_forever (page : Response) : Transport unit :=
  {| http_get w _ := (inr page, w) |}.

(** The loop body when [self.get] is the method as [_wrap_methods] left
    it, wrapped by [handle_confluence_rate_limit]: a wrapper that fell
    through hands over [None], on which [raise_for_status] is an
    [AttributeError] caught by [except Exception]; the handler then tests
    the URL for the problematic expansion and, failing that, reads
    [raw_response.status_code], which raises again. [None] is a wait of
    the wrapper that never ends. *)
Definition loop_body_wrapped {utils : UrlUtils} (auto_paginate : bool)
           (st : PageState) (got : Outcome Response) : option Step :=
  match got with
  | Returned raw_response => Some (loop_body auto_paginate st (inr raw_response))
  | Raised e => Some (loop_body auto_paginate st (inl e))
  | ReturnedNone =>
      Some (if PyStr.contains _PROBLEMATIC_EXPANSIONS (url_suffix st)
            then Again (mkPageState
                          (PyStr.replace _PROBLEMATIC_EXPANSIONS
                             _REPLACEMENT_EXPANSIONS (url_suffix st))
                          (limit st))
            else Stop [] AttributeError)
  | Diverged => None
  end.

(** The pages lead from [cursor] to [last] without any correction: every
    page has a non-empty next link which, where it carries a start, does
    not advance by more than the page holds. *)
Fixpoint follows {utils : UrlUtils} (cursor : string)
         (pages : list (list Json * option string)) (last : string) : Prop :=
  match pages with
  | [] => last = cursor
  | (results, next) :: more =>
      match next with
      | Some link =>
          PyStr.truthy link = true
          /\ (PyStr.contains "start" link = true ->
              get_start_param_from_url link - get_start_param_from_url cursor
              <= len results)
          /\ follows link more last
      | None => False
      end
  end.

(** Three pages of a content search, of two, two and one record. *)
Definition three_pages : list (list Json * option string) :=
  [([JNum 1; JNum 2], Some "rest/api/content/search?cql=type=page&start=2&limit=2");
   ([JNum 3; JNum 4], Some "rest/api/content/search?cql=type=page&start=4&limit=2")].

(** A GET that is answered 429 five times, a second each. *)
Definition limited_get : Timed Response :=
  mkTimed 0 (repeat (1%Q, inl (HTTPError (Some (too_many_requests None)))) 5).

(* ================================================================== *)
(** ** Retrievals built on the fetcher *)

(** A generator consumed to its end by a [for] loop that does something
    with each record: what the loop produced, the requests made, how it
    ended, and the world left behind. *)
Record Retrieval (B World : Type) := mkRetrieval {
  outputs : list B;
  gets : list PageState;
  finish : Ending;
  after : World
}.
Arguments mkRetrieval {B World}.
Arguments outputs {B World}.
Arguments gets {B World}.
Arguments finish {B World}.
Arguments after {B World}.

Section ForEachRecord.
Context {World : Type} {transport : Transport World} {utils : UrlUtils} {B : Type}.

(** The body of the [for] loop, run on one record. *)
Variable handle : Json -> World -> Eff World B.

(** The records of one page go through the body one after the other, as
    [yield from results] hands them out; an exception in the body ends
    the generator. *)
Fixpoint handle_each (results : list Json) (w : World)
  : list B * option Ending * World :=
  match results with
  | [] => ([], None, w)
  | record :: rest =>
      match handle record w with
      | Ok b w1 =>
          let '(bs, stop, w2) := handle_each rest w1 in (b :: bs, stop, w2)
      | Err e w1 => ([], Some (Failed e), w1)
      | Fuel => ([], Some OutOfFuel, w)
      end
  end.

Definition produce (st : PageState) (bs : list B) (r : Retrieval B World)
  : Retrieval B World :=
  mkRetrieval (bs ++ outputs r) (st :: gets r) (finish r) (after r).

(** [for record in self._paginate_url(...): handle(record)]: the loop of
    [_paginate_url], with the body run on each record before the next
    page is asked for. *)
Fixpoint for_each_record (fuel : nat) (auto_paginate : bool) (st : PageState)
         (w : World) : Retrieval B World :=
  if negb (PyStr.truthy (url_suffix st)) then mkRetrieval [] [] Done w
  else
    match fuel with
    | O => mkRetrieval [] [] OutOfFuel w
    | S f =>
        let (got, w1) := http_get w (url_suffix st) in
        match loop_body auto_paginate st got with
        | Again st' => produce st [] (for_each_record f auto_paginate st' w1)
        | Page results st' =>
            match handle_each results w1 with
            | (bs, None, w2) => produce st bs (for_each_record f auto_paginate st' w2)
            | (bs, Some stop, w2) => mkRetrieval bs [st] stop w2
            end
        | Stop results e =>
            match handle_each results w1 with
            | (bs, None, w2) => mkRetrieval bs [st] (Failed e) w2
            | (bs, Some stop, w2) => mkRetrieval bs [st] stop w2
            end
        end
    end.

End ForEachRecord.

(** [f"&expand={expand}" if expand else ""] *)
Definition expand_string (expand : option string) : string :=
  match expand with
  | Some e => if PyStr.truthy e then "&expand=" ++ e else ""
  | None => ""
  end.

Section Retrievals.
Context {World : Type} {transport : Transport World} {utils : UrlUtils}.

Definition paginated_cql_retrieval (fuel : nat) (cql : string)
           (expand : option string) (limit : option Z) (w : World) : Fetch World :=
  _paginate_url fuel ("rest/api/content/search?cql=" ++ cql ++ expand_string expand)
                limit false w.

(** Every record of the top-level query is walked before it is yielded. *)
Definition cql_paginate_all_expansions (fuel : nat) (cql : string)
           (expand : option string) (limit : option Z) (w : World)
  : Retrieval Json World :=
  for_each_record (_traverse_and_update fuel) fuel false
    (initial_state ("rest/api/content/search?cql=" ++ cql ++ expand_string expand)
       limit)
    w.

End Retrievals.

(** [ConfluenceUser], the normalized user record. *)
Module ConfluenceUser.
Record t := mk {
  user_id : string;
  username : option string;
  display_name : string;
  email : option string;
  type : string
}.
End ConfluenceUser.

(** [value[key]] on a JSON value: a missing key is a [KeyError], a value
    that is not an object cannot be indexed by a string. *)
Definition item (key : string) (value : Json) : Result Json :=
  match value with
  | JDict fields =>
      match dict_get key fields with
      | Some v => ret v
      | None => raise (KeyError key)
      end
  | _ => raise TypeError
  end.

(** The validation of the model for a field declared [str]: a value that
    is not a string is refused. *)
Definition as_str (v : Json) : Result string :=
  match v with
  | JStr s => ret s
  | _ => raise (OtherError "ValidationError")
  end.

(** The same for a field declared [str | None]. *)
Definition as_optional_str (v : option Json) : Result (option string) :=
  match v with
  | None | Some JNull => ret None
  | Some (JStr s) => ret (Some s)
  | Some _ => raise (OtherError "ValidationError")
  end.

Definition and_then {A B} (r : Result A) (k : A -> Result B) : Result B :=
  match r with
  | inl e => inl e
  | inr a => k a
  end.

(** The user of a record of the cloud user search: the arguments are
    looked up in the order they are written, then validated. *)
Definition cloud_user (user_result : Json) : Result ConfluenceUser.t :=
  and_then (item "user" user_result) (fun user =>
  and_then (item "accountId" user) (fun account_id =>
  and_then (item "displayName" user) (fun display =>
  let mail := match user with JDict fields => dict_get "email" fields | _ => None end in
  and_then (item "accountType" user) (fun account_type =>
  and_then (as_str account_id) (fun user_id =>
  and_then (as_str display) (fun display_name =>
  and_then (as_optional_str mail) (fun email =>
  and_then (as_str account_type) (fun type =>
  ret (ConfluenceUser.mk user_id None display_name email type))))))))).

(** The user of a record of the user list of a data center. *)
Definition server_user (user : Json) : Result ConfluenceUser.t :=
  and_then (item "userKey" user) (fun user_key =>
  and_then (item "username" user) (fun name =>
  and_then (item "displayName" user) (fun display =>
  let kind := match user with
              | JDict fields =>
                  match dict_get "type" fields with
                  | Some v => v
                  | None => JStr "user"
                  end
              | _ => JStr "user"
              end in
  and_then (as_str user_key) (fun user_id =>
  and_then (as_optional_str (Some name)) (fun username =>
  and_then (as_str display) (fun display_name =>
  and_then (as_str kind) (fun type =>
  ret (ConfluenceUser.mk user_id username display_name None type)))))))).

(** A loop body that only computes. *)
Definition lift {World B} (f : Json -> Result B) (record : Json) (w : World)
  : Eff World B :=
  match f record with
  | inl e => Err e w
  | inr b => Ok b w
  end.

(** [urllib.parse.quote] with its default [safe="/"], on the bytes of the
    string: letters, digits, "_", ".", "-", "~" and "/" stay, any other
    byte becomes "%" and two upper-case hexadecimal digits. *)
Module Quote.

Definition unreserved (c : ascii) : bool :=
  let n := nat_of_ascii c in
  (Nat.leb 65 n && Nat.leb n 90) || (Nat.leb 97 n && Nat.leb n 122)
  || (Nat.leb 48 n && Nat.leb n 57)
  || Nat.eqb n 95 || Nat.eqb n 46 || Nat.eqb n 45 || Nat.eqb n 126.

Definition hex_digit (n : nat) : ascii :=
  if Nat.ltb n 10 then ascii_of_nat (48 + n) else ascii_of_nat (55 + n).

Definition quote_byte (c : ascii) : string :=
  if unreserved c || Ascii.eqb c "/" then String c EmptyString
  else
    let n := nat_of_ascii c in
    String "%" (String (hex_digit (n / 16)) (String (hex_digit (n mod 16)) EmptyString)).

Fixpoint quote (s : string) : string :=
  match s with
  | EmptyString => EmptyString
  | String c rest => quote_byte c ++ quote rest
  end.

End Quote.

Section MoreRetrievals.
Context {World : Type} {transport : Transport World} {utils : UrlUtils}.

(** [self.cloud] is the parameter [cloud]. The cloud endpoint is paged
    with [auto_paginate=True]. *)
Definition paginated_cql_user_retrieval (fuel : nat) (cloud : bool)
           (expand : option string) (limit : option Z) (w : World)
  : Retrieval ConfluenceUser.t World :=
  if cloud
  then for_each_record (lift cloud_user) fuel true
         (initial_state ("rest/api/search/user" ++ "?cql=" ++ "type=user"
                           ++ expand_string expand) limit) w
  else for_each_record (lift server_user) fuel false
         (initial_state "rest/api/user/list" limit) w.

Definition paginated_groups_by_user_retrieval (fuel : nat) (cloud : bool)
           (user_id : string) (limit : option Z) (w : World) : Fetch World :=
  let user_field := if cloud then "accountId" else "key" in
  let user_query := user_field ++ "=" ++ Quote.quote user_id in
  _paginate_url fuel ("rest/api/user/memberof?" ++ user_query) limit false w.

Definition paginated_groups_retrieval (fuel : nat) (limit : option Z) (w : World)
  : Fetch World :=
  _paginate_url fuel "rest/api/group" limit false w.

Definition paginated_group_members_retrieval (fuel : nat) (group_name : string)
           (limit : option Z) (w : World) : Fetch World :=
  _paginate_url fuel ("rest/api/group/" ++ Quote.quote group_name ++ "/member")
                limit false w.

End MoreRetrievals.

(** A user as the cloud search gives it, and one as a data center does. *)
Definition cloud_record : Json :=
  JDict [("user", JDict [("type", JStr "known");
                         ("accountId", JStr "712020:35e60fbb");
                         ("accountType", JStr "atlassian");
                         ("email", JStr "chris@danswer.ai");
                         ("displayName", JStr "Chris Weaver")]);
         ("title", JStr "Chris Weaver")].

Definition server_record : Json :=
  JDict [("type", JStr "known");
         ("username", JStr "admin");
         ("userKey", JStr "40281082950c5fe901950c61c55d0000");
         ("displayName", JStr "Admin Test")].

(** A record of the cloud user search without its "user" entry. *)
Definition userless_record : Json := JDict [("title", JStr "Chris Weaver")].

(** The value of a result that did not raise. *)
Definition inr_value {A} (r : Result A) : option A :=
  match r with
  | inr a => Some a
  | inl _ => None
  end.

(* ------------------------------------------------------------------ *)
(** ** Where the attempts of a run start *)

Section AttemptStarts.
Context {World : Type} {clock : Clock World} {A : Type}.
Variable confluence_call : World -> Result A * World.

(** The world in which the [for] loop of [wrapped_call], entered at index
    [attempt] in the world [w], begins its [k]-th later iteration: every
    iteration before it has made its call, seen it fail in a way that is
    retried, and waited as the [except] branches do.  The deadline is left
    out: this is where the loop stands if it gets that far. *)
Fixpoint attempt_start (fuel : nat) (attempt k : nat) (w : World) : option World :=
  match k with
  | O => Some w
  | S k' =>
      let (r, w1) := confluence_call w in
      match r with
      | inl (HTTPError response) =>
          match _handle_http_error response attempt (monotonic w1) with
          | inr delay_until =>
              match sleep_until fuel delay_until w1 with
              | Some w2 => attempt_start fuel (S attempt) k' w2
              | None => None
              end
          | inl _ => None
          end
      | inl AttributeError =>
          if Nat.eqb attempt (MAX_RETRIES - 1) then None
          else attempt_start fuel (S attempt) k' (sleep 5 w1)
      | _ => None
      end
  end.

End AttemptStarts.



(* ------------------------------------------------------------------ *)
(** ** What the resolver may change *)

(** [extends data data']: [data'] is [data] but for items appended to
    lists that stand under a "results" key.  Scalars are the same, lists
    have the same items in the same places, mappings the same keys in the
    same order, each item and value related in turn. *)
Inductive extends : Json -> Json -> Prop :=
| extends_null : extends JNull JNull
| extends_bool (b : bool) : extends (JBool b) (JBool b)
| extends_num (n : Z) : extends (JNum n) (JNum n)
| extends_str (s : string) : extends (JStr s) (JStr s)
| extends_list (items items' : list Json) :
    Forall2 extends items items' -> extends (JList items) (JList items')
| extends_dict (fields fields' : list (string * Json)) :
    Forall2 extends_entry fields fields' -> extends (JDict fields) (JDict fields')
with extends_entry : string * Json -> string * Json -> Prop :=
| entry_same (k : string) (v v' : Json) :
    extends v v' -> extends_entry (k, v) (k, v')
| entry_results (items kept more : list Json) :
    Forall2 extends items kept ->
    extends_entry ("results", JList items) ("results", JList (kept ++ more)).

(* ================================================================== *)
(** * Properties *)

(* ------------------------------------------------------------------ *)
(** ** Backoff classifier *)



Lemma rate_limited_iff (r : Response) :
  rate_limited r = true <-> rate_limit_classified r.
Proof.
  unfold rate_limited, rate_limit_classified.
  rewrite negb_andb, !negb_involutive, orb_true_iff, Z.eqb_eq.
  reflexivity.
Qed.

Lemma retry_after_clamped (h : Headers) (hdr : string) (x : Z) :
  headers_get "Retry-After" h = Some hdr ->
  PyStr.int hdr = Some x ->
  retry_after_of h = Some (clamp x MIN_DELAY MAX_DELAY).
Proof.
  intros Hget Hint. unfold retry_after_of, clamp, MIN_DELAY, MAX_DELAY.
  rewrite Hget, Hint. f_equal.
  destruct (x >? 60) eqn:Hhi.
  - apply Z.gtb_lt in Hhi. simpl. lia.
  - destruct (x <? 2) eqn:Hlo.
    + apply Z.ltb_lt in Hlo. lia.
    + apply Z.ltb_ge in Hlo. rewrite Z.gtb_ltb, Z.ltb_ge in Hhi. lia.
Qed.

Lemma retry_after_unusable (h : Headers) :
  headers_get "Retry-After" h = None
  \/ (exists hdr, headers_get "Retry-After" h = Some hdr /\ PyStr.int hdr = None) ->
  retry_after_of h = None.
Proof.
  unfold retry_after_of.
  intros [Hnone | (hdr & Hget & Hint)].
  - now rewrite Hnone.
  - now rewrite Hget, Hint.
Qed.

(** C2. For a rate-limit-classified HTTP failure whose Retry-After header
    is present and parses as the integer [x], the delay of the backoff is
    [clamp x 2 60]: a value below 2 is raised to 2, a value above 60 is
    lowered to 60, any other value is used as it is; the resume time is
    the clock reading plus that delay, rounded up. *)
Theorem retry_after_delay_is_clamped
        (r : Response) (h : Headers) (hdr : string) (x : Z) (attempt : nat) (t : Q) :
  headers r = Some h ->
  rate_limit_classified r ->
  headers_get "Retry-After" h = Some hdr ->
  PyStr.int hdr = Some x ->
  backoff_delay (Some r) attempt = inr (clamp x 2 60)
  /\ _handle_http_error (Some r) attempt t = inr (Qceiling (t + inject_Z (clamp x 2 60)))
  /\ (x < 2 -> clamp x 2 60 = 2)
  /\ (60 < x -> clamp x 2 60 = 60)
  /\ (2 <= x <= 60 -> clamp x 2 60 = x).
Proof.
  intros Hh Hrl Hget Hint.
  assert (Hdelay : backoff_delay (Some r) attempt = inr (clamp x 2 60)).
  { unfold backoff_delay. rewrite Hh.
    apply rate_limited_iff in Hrl. rewrite Hrl. simpl.
    now rewrite (retry_after_clamped h hdr x Hget Hint). }
  repeat split.
  - exact Hdelay.
  - unfold _handle_http_error. now rewrite Hdelay.
  - unfold clamp. lia.
  - unfold clamp. lia.
  - unfold clamp. lia.
Qed.

Lemma retry_after_delay_is_clamped_witness :
  backoff_delay (Some (too_many_requests (Some "75"))) 0 = inr 60
  /\ backoff_delay (Some (too_many_requests (Some "1"))) 3 = inr 2
  /\ backoff_delay (Some (too_many_requests (Some " 17 "))) 1 = inr 17.
Proof.
  split; [| split].
  - apply (retry_after_delay_is_clamped
             (too_many_requests (Some "75")) [("Retry-After", "75")] "75" 75 0 0%Q);
      [reflexivity | left; reflexivity | reflexivity | reflexivity].
  - apply (retry_after_delay_is_clamped
             (too_many_requests (Some "1")) [("Retry-After", "1")] "1" 1 3 0%Q);
      [reflexivity | left; reflexivity | reflexivity | reflexivity].
  - apply (retry_after_delay_is_clamped
             (too_many_requests (Some " 17 ")) [("Retry-After", " 17 ")] " 17 " 17 1 0%Q);
      [reflexivity | left; reflexivity | reflexivity | reflexivity].
Defined.

(** C3. For a rate-limit-classified HTTP failure with no Retry-After
    header, or with one that does not parse as an integer, the delay at
    the 0-based attempt index [n] is [min (5 * 2 ^ n) 60]. *)
Theorem exponential_backoff_delay (r : Response) (h : Headers) (n : nat) :
  headers r = Some h ->
  rate_limit_classified r ->
  headers_get "Retry-After" h = None
  \/ (exists hdr, headers_get "Retry-After" h = Some hdr /\ PyStr.int hdr = None) ->
  backoff_delay (Some r) n = inr (Z.min (5 * 2 ^ Z.of_nat n) 60).
Proof.
  intros Hh Hrl Hhdr.
  unfold backoff_delay. rewrite Hh.
  apply rate_limited_iff in Hrl. rewrite Hrl. simpl.
  now rewrite (retry_after_unusable h Hhdr).
Qed.

Lemma exponential_backoff_delay_witness :
  backoff_delay (Some (too_many_requests None)) 2 = inr 20
  /\ backoff_delay (Some (too_many_requests (Some "soon"))) 4 = inr 60.
Proof.
  split.
  - apply (exponential_backoff_delay (too_many_requests None) [] 2);
      [reflexivity | left; reflexivity | left; reflexivity].
  - apply (exponential_backoff_delay
             (too_many_requests (Some "soon")) [("Retry-After", "soon")] 4);
      [reflexivity | left; reflexivity | right; exists "soon"; split; reflexivity].
Defined.

(* ------------------------------------------------------------------ *)
(** ** Method retry wrapper *)



Section RetryWrapperFacts.
Context {World : Type} {clock : Clock World} {A : Type}.
Variable confluence_call : World -> Result A * World.

Lemma retry_loop_attempts (fuel : nat) (timeout_at : Q) (todo : list nat) :
  forall w,
    (List.length (attempts (retry_loop confluence_call fuel timeout_at todo w))
     <= List.length todo)%nat.
Proof.
  induction todo as [| attempt rest IH]; intros w; simpl.
  - lia.
  - destruct (Qltb timeout_at (monotonic w)); simpl; [lia |].
    destruct (confluence_call w) as [r w1]. simpl.
    apply le_n_S.
    destruct r as [e | v]; simpl; [| lia].
    destruct e; simpl; try lia.
    + destruct (_handle_http_error response attempt (monotonic w1)); simpl; [lia |].
      destruct (sleep_until fuel z w1); simpl; [apply IH | lia].
    + destruct (Nat.eqb attempt _); simpl; [lia | apply IH].
Qed.

Lemma retry_loop_timeout (fuel : nat) (timeout_at : Q) (attempt : nat)
      (rest : list nat) (w : World) :
  (timeout_at < monotonic w)%Q ->
  retry_loop confluence_call fuel timeout_at (attempt :: rest) w
  = mkRun (Raised timeout_error) [] w.
Proof.
  intros Hlate. simpl.
  assert (Hb : Qltb timeout_at (monotonic w) = true).
  { unfold Qltb. apply negb_true_iff.
    destruct (Qle_bool (monotonic w) timeout_at) eqn:Hle; [| reflexivity].
    apply Qle_bool_iff in Hle. exfalso. apply (Qlt_not_le _ _ Hlate Hle). }
  rewrite Hb. reflexivity.
Qed.

(** A polling wait ends once the clock has passed the resume time, as
    long as sleeping moves the clock on by the time asked for. *)
Hypothesis sleep_advances :
  forall (seconds : Z) (w : World),
    (monotonic w + inject_Z seconds <= monotonic (sleep seconds w))%Q.

Lemma sleep_until_ends (delay_until : Z) :
  forall (fuel : nat) (w : World),
    (inject_Z delay_until - monotonic w <= inject_Z (Z.of_nat fuel))%Q ->
    exists w', sleep_until (S fuel) delay_until w = Some w'.
Proof.
  induction fuel as [| f IH]; intros w Hfuel.
  - exists w. simpl. unfold Qltb.
    replace (Qle_bool (inject_Z delay_until) (monotonic w)) with true; [reflexivity |].
    symmetry. apply Qle_bool_iff. change (inject_Z (Z.of_nat 0)) with 0%Q in Hfuel. lra.
  - change (sleep_until (S (S f)) delay_until w)
      with (if Qltb (monotonic w) (inject_Z delay_until)
            then sleep_until (S f) delay_until (sleep 1 w)
            else Some w).
    destruct (Qltb (monotonic w) (inject_Z delay_until)); [| now exists w].
    apply IH.
    pose proof (sleep_advances 1 w) as Hadv.
    rewrite Nat2Z.inj_succ, <- Z.add_1_r, inject_Z_plus in Hfuel.
    change (inject_Z 1) with 1%Q in *. lra.
Qed.

Lemma backoff_delay_bounded (response : option Response) (attempt : nat) (delay : Z) :
  backoff_delay response attempt = inr delay -> delay <= MAX_DELAY.
Proof.
  unfold backoff_delay, retry_after_of, MAX_DELAY, MIN_DELAY, raise, ret.
  destruct response as [r |]; [| discriminate].
  destruct (headers r) as [h |]; [| discriminate].
  destruct (negb (rate_limited r)); [discriminate |].
  destruct (headers_get "Retry-After" h) as [hdr |].
  - destruct (PyStr.int hdr) as [x |].
    + intros [= <-].
      destruct (x >? 60) eqn:Hhi; simpl.
      * lia.
      * rewrite Z.gtb_ltb, Z.ltb_ge in Hhi.
        destruct (x <? 2); lia.
    + intros [= <-]. lia.
  - intros [= <-]. lia.
Qed.

Lemma backoff_sleep_ends (response : option Response) (attempt : nat)
      (delay_until : Z) (fuel : nat) (w : World) :
  (62 <= fuel)%nat ->
  _handle_http_error response attempt (monotonic w) = inr delay_until ->
  exists w', sleep_until fuel delay_until w = Some w'.
Proof.
  intros Hfuel. unfold _handle_http_error.
  destruct (backoff_delay response attempt) as [e | delay] eqn:Hdelay; [discriminate |].
  intros [= <-].
  apply backoff_delay_bounded in Hdelay. unfold MAX_DELAY in Hdelay.
  destruct fuel as [| f]; [lia |].
  apply sleep_until_ends.
  pose proof (Qceiling_lt (monotonic w + inject_Z delay)) as Hceil.
  unfold Z.sub in Hceil. rewrite inject_Z_plus, inject_Z_opp in Hceil.
  change (inject_Z 1) with 1%Q in Hceil.
  assert (Hd : (inject_Z delay <= 60)%Q).
  { change 60%Q with (inject_Z 60). rewrite <- Zle_Qle. exact Hdelay. }
  assert (Hf : (61 <= inject_Z (Z.of_nat f))%Q).
  { change 61%Q with (inject_Z 61). rewrite <- Zle_Qle. lia. }
  lra.
Qed.

Lemma rate_limit_failure_backs_off (response : Response) (attempt : nat) (t : Q) :
  rate_limit_failure (A := A) (inl (HTTPError (Some response))) = true ->
  exists delay_until,
    _handle_http_error (Some response) attempt t = inr delay_until.
Proof.
  unfold rate_limit_failure, _handle_http_error, backoff_delay.
  destruct (headers response) as [h |]; [| discriminate].
  intros ->. simpl.
  destruct (retry_after_of h); eexists; reflexivity.
Qed.

Lemma all_rate_limited_returns_none (fuel : nat) (timeout_at : Q) :
  (62 <= fuel)%nat ->
  forall (todo : list nat) (w : World),
    let run := retry_loop confluence_call fuel timeout_at todo w in
    List.length (attempts run) = List.length todo ->
    forallb rate_limit_failure (attempts run) = true ->
    outcome run = ReturnedNone.
Proof.
  intros Hfuel.
  induction todo as [| attempt rest IH]; intros w; [reflexivity |].
  simpl.
  destruct (Qltb timeout_at (monotonic w)); simpl; [discriminate |].
  destruct (confluence_call w) as [r w1]. simpl.
  intros Hlen Hall.
  apply andb_true_iff in Hall as [Hr Hall].
  destruct r as [[[response |] | | | | | | | |] | v]; try discriminate Hr.
  destruct (rate_limit_failure_backs_off response attempt (monotonic w1) Hr)
    as [delay_until Hhandle].
  rewrite Hhandle in *.
  destruct (backoff_sleep_ends _ _ _ fuel w1 Hfuel Hhandle) as [w2 Hslept].
  rewrite Hslept in *.
  apply IH; [| exact Hall].
  injection Hlen as Hlen. exact Hlen.
Qed.

End RetryWrapperFacts.

(* ------------------------------------------------------------------ *)
(** ** Cursor-paginating fetcher *)


Section FetcherFacts.
Context {World : Type} {transport : Transport World} {utils : UrlUtils}.

Lemma fetch_loop_step (fuel : nat) (auto_paginate : bool) (st : PageState)
      (w w1 : World) (got : Result Response) :
  PyStr.truthy (url_suffix st) = true ->
  http_get w (url_suffix st) = (got, w1) ->
  fetch_loop (S fuel) auto_paginate st w
  = match loop_body auto_paginate st got with
    | Again st' => emit st [] (fetch_loop fuel auto_paginate st' w1)
    | Page results st' => emit st results (fetch_loop fuel auto_paginate st' w1)
    | Stop results e => mkFetch results [st] (Failed e) w1
    end.
Proof.
  intros Hurl Hget. simpl. rewrite Hurl, Hget. reflexivity.
Qed.

Lemma loop_body_page (auto_paginate : bool) (st : PageState) (r : Response)
      (body : Json) (results : list Json) (next : string) :
  raise_for_status r = None ->
  json r = Some body ->
  page_results body = inr results ->
  page_next body = inr next ->
  loop_body auto_paginate st (inr r)
  = Page results
      (mkPageState (next_cursor auto_paginate (url_suffix st) results next) (limit st)).
Proof.
  intros Hok Hjson Hres Hnext. unfold loop_body.
  now rewrite Hok, Hjson, Hres, Hnext.
Qed.

Lemma raise_for_status_error (r : Response) :
  400 <= status_code r < 600 ->
  raise_for_status r = Some (HTTPError (Some r)).
Proof.
  intros [Hlo Hhi]. unfold raise_for_status.
  apply Z.leb_le in Hlo. apply Z.ltb_lt in Hhi. now rewrite Hlo, Hhi.
Qed.

Lemma requests_head (fuel : nat) (auto_paginate : bool) :
  forall (st : PageState) (w : World),
    requests (fetch_loop fuel auto_paginate st w) = []
    \/ exists rest, requests (fetch_loop fuel auto_paginate st w) = st :: rest.
Proof.
  destruct fuel as [| f]; intros st w; simpl.
  - destruct (negb (PyStr.truthy (url_suffix st))); now left.
  - destruct (negb (PyStr.truthy (url_suffix st))); [now left |].
    destruct (http_get w (url_suffix st)) as [got w1].
    right. destruct (loop_body auto_paginate st got); simpl; eauto.
Qed.

Lemma loop_body_limit (auto_paginate : bool) (st : PageState) (got : Result Response) :
  match loop_body auto_paginate st got with
  | Again st' | Page _ st' =>
      limit st' = limit st
      \/ (_MINIMUM_PAGINATION_LIMIT < limit st /\ limit st' = limit st / 2)
  | Stop _ _ => True
  end.
Proof.
  unfold loop_body.
  destruct got as [e | r]; [exact I |].
  destruct (raise_for_status r).
  - destruct (PyStr.contains _PROBLEMATIC_EXPANSIONS (url_suffix st)); [now left |].
    destruct (status_code r =? 500); simpl; [| exact I].
    destruct (limit st >? _MINIMUM_PAGINATION_LIMIT) eqn:Hgt; [| exact I].
    right. split; [| reflexivity]. rewrite Z.gtb_ltb in Hgt. now apply Z.ltb_lt.
  - destruct (json r) as [body |]; [| exact I].
    destruct (page_results body); [exact I |].
    destruct (page_next body); [exact I | now left].
Qed.

Lemma fetch_loop_limits (fuel : nat) (auto_paginate : bool) :
  forall (st : PageState) (w : World),
    halving_chain (limit st)
      (map limit (requests (fetch_loop fuel auto_paginate st w))).
Proof.
  induction fuel as [| f IH]; intros st w; simpl.
  - destruct (negb (PyStr.truthy (url_suffix st))); exact I.
  - destruct (negb (PyStr.truthy (url_suffix st))); [exact I |].
    destruct (http_get w (url_suffix st)) as [got w1].
    pose proof (loop_body_limit auto_paginate st got) as Hlimit.
    destruct (loop_body auto_paginate st got) as [st' | results st' | results e];
      simpl; (split; [now left |]).
    + specialize (IH st' w1).
      destruct (requests_head f auto_paginate st' w1) as [Hreq | [rest Hreq]];
        rewrite Hreq in *; [exact I |].
      simpl in *. split; [exact Hlimit | apply IH].
    + specialize (IH st' w1).
      destruct (requests_head f auto_paginate st' w1) as [Hreq | [rest Hreq]];
        rewrite Hreq in *; [exact I |].
      simpl in *. split; [exact Hlimit | apply IH].
    + exact I.
Qed.

End FetcherFacts.

Section FetcherClaims.
Context {World : Type} {transport : Transport World} {utils : UrlUtils}.

Lemma next_cursor_corrected (auto_paginate : bool) (old next : string)
      (results : list Json) :
  PyStr.truthy next = true ->
  PyStr.contains "start" next = true ->
  get_start_param_from_url next - get_start_param_from_url old > len results ->
  next_cursor auto_paginate old results next
  = update_param_in_path
      (if auto_paginate && (len results >? 0) then old else next) "start"
      (PyStr.str (get_start_param_from_url old + len results)).
Proof.
  intros Htruthy Hstart Hadvance. unfold next_cursor.
  rewrite Htruthy, Hstart. cbn [andb].
  apply Z.gt_lt, Z.ltb_lt in Hadvance. rewrite (Z.gtb_ltb _ (len results)), Hadvance.
  destruct (auto_paginate && (len results >? 0)); reflexivity.
Qed.

(** C1. When a page's next cursor carries "start" and advances by more
    than the number of results of the page, the cursor of the next
    request has its start written as the previous start plus the number
    of results, which is not the start the server gave. (With
    auto-pagination and a non-empty page the rewritten cursor is the
    previous request's, otherwise the server's.) *)
Theorem over_advanced_cursor_is_rewritten
        (fuel : nat) (auto_paginate : bool) (st : PageState) (w w1 : World)
        (r : Response) (body : Json) (results : list Json) (next : string) :
  PyStr.truthy (url_suffix st) = true ->
  http_get w (url_suffix st) = (inr r, w1) ->
  raise_for_status r = None ->
  json r = Some body ->
  page_results body = inr results ->
  page_next body = inr next ->
  PyStr.truthy next = true ->
  PyStr.contains "start" next = true ->
  get_start_param_from_url next - get_start_param_from_url (url_suffix st)
    > len results ->
  fetch_loop (S fuel) auto_paginate st w
  = emit st results
      (fetch_loop fuel auto_paginate
         (mkPageState
            (update_param_in_path
               (if auto_paginate && (len results >? 0) then url_suffix st else next)
               "start"
               (PyStr.str (get_start_param_from_url (url_suffix st) + len results)))
            (limit st))
         w1)
  /\ get_start_param_from_url (url_suffix st) + len results
     <> get_start_param_from_url next.
Proof.
  intros Hurl Hget Hok Hjson Hres Hnext Htruthy Hstart Hadvance.
  split; [| lia].
  rewrite (fetch_loop_step fuel auto_paginate st w w1 (inr r) Hurl Hget).
  rewrite (loop_body_page auto_paginate st r body results next Hok Hjson Hres Hnext).
  now rewrite (next_cursor_corrected auto_paginate _ next results Htruthy Hstart Hadvance).
Qed.

(** C5, as the code has it. For an error response to a GET whose URL
    does not hold the problematic expansion: with status 500 and a limit
    above 50 the limit is halved, every "limit=<old>" of the cursor is
    rewritten to the new limit and the iteration is tried again; with a
    limit of 50 or less, or with any other error status, the error ends
    the retrieval. *)
Theorem server_error_halves_limit
        (fuel : nat) (auto_paginate : bool) (st : PageState) (w w1 : World)
        (r : Response) :
  PyStr.truthy (url_suffix st) = true ->
  http_get w (url_suffix st) = (inr r, w1) ->
  400 <= status_code r < 600 ->
  PyStr.contains _PROBLEMATIC_EXPANSIONS (url_suffix st) = false ->
  (status_code r = 500 -> 50 < limit st ->
   fetch_loop (S fuel) auto_paginate st w
   = emit st []
       (fetch_loop fuel auto_paginate
          (mkPageState
             (PyStr.replace ("limit=" ++ PyStr.str (limit st))
                ("limit=" ++ PyStr.str (limit st / 2)) (url_suffix st))
             (limit st / 2))
          w1))
  /\ (status_code r <> 500 \/ limit st <= 50 ->
      fetch_loop (S fuel) auto_paginate st w
      = mkFetch [] [st] (Failed (HTTPError (Some r))) w1).
Proof.
  intros Hurl Hget Hstatus Hexp.
  rewrite (fetch_loop_step fuel auto_paginate st w w1 (inr r) Hurl Hget).
  unfold loop_body.
  rewrite (raise_for_status_error r Hstatus), Hexp.
  unfold _MINIMUM_PAGINATION_LIMIT.
  split.
  - intros H500 Hlimit.
    apply Z.eqb_eq in H500. apply Z.ltb_lt in Hlimit.
    now rewrite H500, Z.gtb_ltb, Hlimit.
  - intros [Hnot | Hlow].
    + apply Z.eqb_neq in Hnot. now rewrite Hnot.
    + apply Z.ltb_ge in Hlow. rewrite Z.gtb_ltb, Hlow.
      now rewrite andb_false_r.
Qed.

(** C8, as the code has it. With auto-pagination, a page without
    results has no cursor made for it: the retrieval goes on with the
    cursor the server gave, treated as without auto-pagination, and it
    ends after that page exactly when the server gave none. *)
Theorem empty_page_follows_server_cursor
        (fuel : nat) (st : PageState) (w w1 : World)
        (r : Response) (body : Json) (next : string) :
  PyStr.truthy (url_suffix st) = true ->
  http_get w (url_suffix st) = (inr r, w1) ->
  raise_for_status r = None ->
  json r = Some body ->
  page_results body = inr [] ->
  page_next body = inr next ->
  fetch_loop (S fuel) true st w
  = emit st []
      (fetch_loop fuel true
         (mkPageState (next_cursor false (url_suffix st) [] next) (limit st)) w1)
  /\ (next = "" -> fetch_loop (S fuel) true st w = mkFetch [] [st] Done w1)
  /\ (PyStr.contains "start" next = false ->
      next_cursor false (url_suffix st) [] next = next).
Proof.
  intros Hurl Hget Hok Hjson Hres Hnext.
  rewrite (fetch_loop_step fuel true st w w1 (inr r) Hurl Hget).
  rewrite (loop_body_page true st r body [] next Hok Hjson Hres Hnext).
  split; [reflexivity |]. split.
  - intros ->. unfold next_cursor. simpl.
    destruct fuel; reflexivity.
  - intros Hplain. unfold next_cursor. rewrite Hplain.
    destruct (PyStr.truthy next); reflexivity.
Qed.

End FetcherClaims.

Lemma over_advanced_cursor_is_rewritten_witness :
  fetch_loop 2 false content_search [inr over_advancing_page]
  = emit content_search [JDict [("id", JStr "1")]; JDict [("id", JStr "2")]]
      (fetch_loop 1 false
         (mkPageState "rest/api/content/search?cql=type=page&start=2&limit=1000" 1000)
         [])
  /\ 0 + 2 <> 5.
Proof.
  exact (over_advanced_cursor_is_rewritten
           1 false content_search [inr over_advancing_page] [] over_advancing_page
           (JDict [("results", JList [JDict [("id", JStr "1")]; JDict [("id", JStr "2")]]);
                   ("_links",
                    JDict [("next",
                            JStr "rest/api/content/search?cql=type=page&start=5&limit=1000")])])
           [JDict [("id", JStr "1")]; JDict [("id", JStr "2")]]
           "rest/api/content/search?cql=type=page&start=5&limit=1000"
           eq_refl eq_refl eq_refl eq_refl eq_refl eq_refl eq_refl eq_refl eq_refl).
Defined.

(** C5 as stated fails: a 503 is a server error and the limit of 1000
    exceeds 50, yet the retrieval ends with the error after one request;
    no request at limit 500 is made, though it would have succeeded. *)
Lemma service_unavailable_is_not_retried :
  500 <= status_code (error_page 503) < 600
  /\ 50 < limit content_search
  /\ fetch_loop 5 false content_search [inr (error_page 503); inr (ok_page [] None)]
     = mkFetch [] [content_search] (Failed (HTTPError (Some (error_page 503))))
         [inr (ok_page [] None)].
Proof.
  split; [simpl; lia |]. split; reflexivity.
Defined.

Lemma server_error_halves_limit_witness :
  fetch_loop 2 false content_search [inr (error_page 500)]
  = emit content_search []
      (fetch_loop 1 false
         (mkPageState "rest/api/content/search?cql=type=page&limit=500" 500) [])
  /\ fetch_loop 2 false (initial_state "rest/api/group" (Some 50))
                [inr (error_page 500)]
     = mkFetch [] [initial_state "rest/api/group" (Some 50)]
         (Failed (HTTPError (Some (error_page 500)))) [].
Proof.
  split.
  - apply (server_error_halves_limit
             1 false content_search [inr (error_page 500)] [] (error_page 500));
      try reflexivity.
    simpl; lia.
  - apply (server_error_halves_limit
             1 false (initial_state "rest/api/group" (Some 50))
             [inr (error_page 500)] [] (error_page 500));
      try reflexivity.
    + simpl; lia.
    + right. simpl. lia.
Defined.

(** C8 as stated fails: with auto-pagination, a page without results that
    comes with a cursor is followed by a second request, to that cursor. *)
Lemma empty_page_does_not_end_the_loop :
  page_results (JDict [("results", JList []);
                       ("_links", JDict [("next", JStr "rest/api/search/user?cursor=abc")])])
  = inr []
  /\ requests (fetch_loop 5 true user_search
                 [inr empty_page_with_cursor; inr (ok_page [] None)])
     = [user_search; mkPageState "rest/api/search/user?cursor=abc" 1000].
Proof.
  split; reflexivity.
Defined.

Lemma empty_page_follows_server_cursor_witness :
  fetch_loop 2 true user_search [inr empty_page_with_cursor]
  = emit user_search []
      (fetch_loop 1 true (mkPageState "rest/api/search/user?cursor=abc" 1000) []).
Proof.
  apply (empty_page_follows_server_cursor
           1 user_search [inr empty_page_with_cursor] [] empty_page_with_cursor
           (JDict [("results", JList []);
                   ("_links", JDict [("next", JStr "rest/api/search/user?cursor=abc")])])
           "rest/api/search/user?cursor=abc");
    reflexivity.
Defined.

(* ------------------------------------------------------------------ *)
(** ** Nested-expansion resolver *)

Lemma settled_fields (fields : list (string * Json)) :
  settled (JDict fields) = true ->
  (exists next_url,
      next_link fields = inr next_url
      /\ opt_truthy next_url && dict_has "results" fields = false)
  /\ Forall (fun kv => settled (snd kv) = true) fields.
Proof.
  simpl. intros H. apply andb_true_iff in H as [Hlink Hall]. split.
  - destruct (next_link fields) as [e | next_url]; [discriminate |].
    exists next_url. split; [reflexivity |]. now apply negb_true_iff.
  - clear Hlink. induction fields as [| [k v] rest IH]; [constructor |].
    apply andb_true_iff in Hall as [Hv Hrest].
    constructor; [exact Hv | apply IH, Hrest].
Qed.

Lemma settled_items (items : list Json) :
  settled (JList items) = true -> Forall (fun v => settled v = true) items.
Proof.
  simpl. induction items as [| v rest IH]; intros Hall; [constructor |].
  apply andb_true_iff in Hall as [Hv Hrest].
  constructor; [exact Hv | apply IH, Hrest].
Qed.

Lemma depth_fields (fields : list (string * Json)) (n : nat) :
  (depth (JDict fields) < S n)%nat ->
  Forall (fun kv => (depth (snd kv) < n)%nat) fields.
Proof.
  simpl. intros H. apply PeanoNat.lt_S_n in H.
  induction fields as [| [k v] rest IH]; [constructor |].
  constructor; [simpl; lia | apply IH; lia].
Qed.

Lemma depth_items (items : list Json) (n : nat) :
  (depth (JList items) < S n)%nat ->
  Forall (fun v => (depth v < n)%nat) items.
Proof.
  simpl. intros H. apply PeanoNat.lt_S_n in H.
  induction items as [| v rest IH]; [constructor |].
  constructor; [simpl; lia | apply IH; lia].
Qed.

Section ResolverFacts.
Context {World : Type} {transport : Transport World} {utils : UrlUtils}.

Lemma each_value_unchanged (visit : Json -> World -> Eff World Json)
      (fields : list (string * Json)) (w : World) :
  Forall (fun kv => visit (snd kv) w = Ok (snd kv) w) fields ->
  each_value visit fields w = Ok fields w.
Proof.
  induction 1 as [| [k v] rest Hv _ IH]; [reflexivity |].
  simpl in *. rewrite Hv. cbn [bind]. rewrite IH. reflexivity.
Qed.

Lemma each_item_unchanged (visit : Json -> World -> Eff World Json)
      (items : list Json) (w : World) :
  Forall (fun v => visit v w = Ok v w) items ->
  each_item visit items w = Ok items w.
Proof.
  induction 1 as [| v rest Hv _ IH]; [reflexivity |].
  simpl in *. rewrite Hv. cbn [bind]. rewrite IH. reflexivity.
Qed.

End ResolverFacts.

(** C7 as stated fails: the resolver appends the fetched page to the
    truncated list and keeps the continuation link; run again on its own
    result it fetches and appends once more. *)
Lemma resolver_keeps_links_and_appends_again :
  _traverse_and_update 5 truncated_record [inr last_comment_page; inr last_comment_page]
  = Ok (JDict [("results", JList [JDict [("id", JStr "1")]; JDict [("id", JStr "2")]]);
               ("_links",
                JDict [("next", JStr "rest/api/content/7/child/comment?start=1")])])
       [inr last_comment_page]
  /\ has_next_link
       (JDict [("results", JList [JDict [("id", JStr "1")]; JDict [("id", JStr "2")]]);
               ("_links",
                JDict [("next", JStr "rest/api/content/7/child/comment?start=1")])])
     = true
  /\ _traverse_and_update 5
       (JDict [("results", JList [JDict [("id", JStr "1")]; JDict [("id", JStr "2")]]);
               ("_links",
                JDict [("next", JStr "rest/api/content/7/child/comment?start=1")])])
       [inr last_comment_page]
     = Ok (JDict [("results", JList [JDict [("id", JStr "1")]; JDict [("id", JStr "2")];
                                       JDict [("id", JStr "2")]]);
                  ("_links",
                   JDict [("next", JStr "rest/api/content/7/child/comment?start=1")])])
          [].
Proof.
  repeat split; reflexivity.
Defined.

(* ------------------------------------------------------------------ *)
(** ** Set-up *)

Section SetupFacts.
Context {World : Type} {api : SpaceApi World}.

(** The validation makes one read call, with the client of 6 retries,
    and no production client is built when that call raises or gives a
    falsy value. *)
Lemma validation_rejects_error_and_falsy
      (credentials : list (string * string)) (is_cloud : bool)
      (wiki_base : string) (w w1 : World)
      (minimal : ClientConfig) (got : Result Json) :
  client_config credentials is_cloud wiki_base 6 10 None = inr minimal ->
  get_all_spaces minimal 1 w = (got, w1) ->
  match got with
  | inl e => True
  | inr spaces => json_truthy spaces = false
  end ->
  exists msg,
    build_confluence_client credentials is_cloud wiki_base w
    = (inl (ConnectorValidationError msg), w1).
Proof.
  intros Hcfg Hcall Hgot.
  unfold build_confluence_client, _validate_connector_configuration.
  rewrite Hcfg, Hcall.
  destruct got as [e | spaces].
  - eexists. reflexivity.
  - rewrite Hgot. simpl. eexists. reflexivity.
Qed.

(** Any non-empty mapping passes the validation, whatever its
    "results" hold. *)
Lemma validation_accepts_any_mapping
      (credentials : list (string * string)) (is_cloud : bool)
      (wiki_base : string) (w w1 : World)
      (minimal : ClientConfig) (field : string * Json)
      (fields : list (string * Json)) :
  client_config credentials is_cloud wiki_base 6 10 None = inr minimal ->
  get_all_spaces minimal 1 w = (inr (JDict (field :: fields)), w1) ->
  _validate_connector_configuration credentials is_cloud wiki_base w
  = (inr tt, w1).
Proof.
  intros Hcfg Hcall. unfold _validate_connector_configuration.
  now rewrite Hcfg, Hcall.
Qed.

End SetupFacts.

(** C9, where the code departs from it. The validation is to fail with a
    configuration error when the read call returns zero results. On the
    answer of a site without spaces, a mapping whose "results" list is
    empty, the code raises nothing: the test [not spaces] looks at the
    mapping, which is not empty, and the production client is built and
    returned. *)
Theorem validation_passes_on_zero_results :
  page_results empty_space_listing = inr []
  /\ build_confluence_client (api := fixed_spaces (inr empty_space_listing))
       cloud_credentials true "https://example.atlassian.net/wiki/" 0%nat
     = (inr (mkClientConfig "cloud" "https://example.atlassian.net/wiki"
               (Some "admin@example.com") (Some "secret") None true 10 60 (Some true)),
        1%nat).
Proof.
  split; reflexivity.
Qed.

(* ================================================================== *)
(** * Further properties *)

(* ------------------------------------------------------------------ *)
(** ** Backoff classifier, beyond the delays *)

Lemma backoff_delay_raises (response : option Response) (attempt : nat) (e : Exn) :
  backoff_delay response attempt = inl e ->
  e = HTTPError response
  /\ (response = None
      \/ exists r, response = Some r
                   /\ (headers r = None \/ rate_limited r = false)).
Proof.
  unfold backoff_delay, raise, ret.
  destruct response as [r |]; [| intros [= <-]; split; [reflexivity | now left]].
  destruct (headers r) as [h |] eqn:Hh.
  - destruct (rate_limited r) eqn:Hrl; simpl.
    + destruct (retry_after_of h); discriminate.
    + intros [= <-]. split; [reflexivity |]. right. exists r. split; [reflexivity | now right].
  - intros [= <-]. split; [reflexivity |]. right. exists r. split; [reflexivity | now left].
Qed.

Lemma backoff_delay_returns (response : option Response) (attempt : nat) (delay : Z) :
  backoff_delay response attempt = inr delay ->
  exists r h, response = Some r /\ headers r = Some h /\ rate_limited r = true.
Proof.
  unfold backoff_delay, raise, ret.
  destruct response as [r |]; [| discriminate].
  destruct (headers r) as [h |] eqn:Hh; [| discriminate].
  destruct (rate_limited r) eqn:Hrl; [| discriminate].
  intros _. exists r, h. auto.
Qed.

(** X1. The classifier raises nothing but the error it was given, and it
    raises exactly when the error has no response, no headers, or is not
    rate-limit-classified; in every other case it gives a resume time. *)
Theorem unclassified_failure_is_reraised
        (response : option Response) (attempt : nat) (t : Q) :
  (forall e, _handle_http_error response attempt t = inl e -> e = HTTPError response)
  /\ ((exists e, _handle_http_error response attempt t = inl e)
      <-> (response = None
           \/ exists r, response = Some r
                        /\ (headers r = None \/ ~ rate_limit_classified r))).
Proof.
  unfold _handle_http_error. split.
  - intros e.
    destruct (backoff_delay response attempt) as [e' | d] eqn:Hd; [| discriminate].
    intros [= <-]. now apply backoff_delay_raises in Hd.
  - split.
    + intros [e He].
      destruct (backoff_delay response attempt) as [e' | d] eqn:Hd; [| discriminate].
      apply backoff_delay_raises in Hd as [_ [-> | (r & -> & Hr)]]; [now left |].
      right. exists r. split; [reflexivity |].
      destruct Hr as [Hh | Hrl]; [now left | right].
      intros Hc. apply rate_limited_iff in Hc. congruence.
    + intros Hwhy.
      destruct (backoff_delay response attempt) as [e' | d] eqn:Hd; [now exists e' |].
      exfalso. apply backoff_delay_returns in Hd as (r & h & -> & Hh & Hrl).
      destruct Hwhy as [Hnone | (r' & [= <-] & [Hno | Hnot])];
        [discriminate | congruence |].
      apply Hnot, rate_limited_iff, Hrl.
Qed.

Lemma exponential_delay_bounds (attempt : nat) :
  5 <= Z.min (STARTING_DELAY * BACKOFF ^ Z.of_nat attempt) MAX_DELAY <= 60.
Proof.
  unfold STARTING_DELAY, BACKOFF, MAX_DELAY.
  assert (Hpow : 1 <= 2 ^ Z.of_nat attempt)
    by (apply (Z.pow_le_mono_r 2 0); lia).
  lia.
Qed.

Lemma retry_after_of_bounds (h : Headers) (x : Z) :
  retry_after_of h = Some x -> 2 <= x <= 60.
Proof.
  unfold retry_after_of, MAX_DELAY, MIN_DELAY.
  destruct (headers_get "Retry-After" h) as [hdr |]; [| discriminate].
  destruct (PyStr.int hdr) as [y |]; [| discriminate].
  destruct (y >? 60) eqn:Hhi.
  - intros H. assert (x = 60) by (simpl in H; congruence). lia.
  - rewrite Z.gtb_ltb, Z.ltb_ge in Hhi.
    destruct (y <? 2) eqn:Hlo; intros H.
    + assert (x = 2) by congruence. lia.
    + apply Z.ltb_ge in Hlo. assert (x = y) by congruence. lia.
Qed.

Lemma backoff_delay_cases (response : option Response) (attempt : nat) (delay : Z) :
  backoff_delay response attempt = inr delay ->
  exists r h,
    response = Some r /\ headers r = Some h /\ rate_limited r = true
    /\ (retry_after_of h = Some delay
        \/ (retry_after_of h = None
            /\ delay = Z.min (STARTING_DELAY * BACKOFF ^ Z.of_nat attempt) MAX_DELAY)).
Proof.
  unfold backoff_delay, raise, ret.
  destruct response as [r |]; [| discriminate].
  destruct (headers r) as [h |] eqn:Hh; [| discriminate].
  destruct (rate_limited r) eqn:Hrl; [| discriminate].
  cbn [negb].
  destruct (retry_after_of h) as [x |] eqn:Hx; intros H; exists r, h;
    (split; [reflexivity |]); (split; [exact Hh |]); (split; [exact Hrl |]).
  - left. congruence.
  - right. split; [exact Hx | congruence].
Qed.

Lemma backoff_delay_at_least (response : option Response) (attempt : nat) (delay : Z) :
  backoff_delay response attempt = inr delay -> MIN_DELAY <= delay.
Proof.
  intros H. apply backoff_delay_cases in H as (r & h & _ & _ & _ & [Hx | [_ ->]]).
  - apply retry_after_of_bounds in Hx. unfold MIN_DELAY. lia.
  - pose proof (exponential_delay_bounds attempt). unfold MIN_DELAY. lia.
Qed.

(** X3. The delay never shrinks from one attempt to the next, and
    without a usable Retry-After header it has reached its ceiling of 60
    seconds from the fifth attempt (index 4) on. *)
Theorem backoff_grows_and_saturates
        (response : option Response) (n m : nat) (dn dm : Z) :
  backoff_delay response n = inr dn ->
  backoff_delay response m = inr dm ->
  (n <= m)%nat ->
  dn <= dm
  /\ ((forall r h, response = Some r -> headers r = Some h -> retry_after_of h = None ->
       (4 <= n)%nat -> dn = 60)).
Proof.
  intros Hn Hm Hle.
  apply backoff_delay_cases in Hn as (r & h & -> & Hh & _ & Hn).
  apply backoff_delay_cases in Hm as (r' & h' & [= <-] & Hh' & _ & Hm).
  assert (h' = h) by congruence. subst h'.
  assert (Hpow : 2 ^ Z.of_nat n <= 2 ^ Z.of_nat m) by (apply Z.pow_le_mono_r; lia).
  unfold STARTING_DELAY, BACKOFF, MAX_DELAY in *.
  split.
  - destruct Hn as [Hn | [Hn ->]], Hm as [Hm | [Hm ->]]; try congruence.
    + assert (dn = dm) by congruence. lia.
    + lia.
  - intros r0 h0 [= <-] Hh0 Hnone H4.
    assert (h0 = h) by congruence. subst h0.
    destruct Hn as [Hn | [_ ->]]; [congruence |].
    assert (2 ^ 4 <= 2 ^ Z.of_nat n) by (apply Z.pow_le_mono_r; lia).
    change (2 ^ 4) with 16 in *. lia.
Qed.

Lemma backoff_grows_and_saturates_witness :
  40 <= 60
  /\ (forall r h, Some (too_many_requests None) = Some r -> headers r = Some h ->
      retry_after_of h = None -> (4 <= 3)%nat -> 40 = 60).
Proof.
  apply (backoff_grows_and_saturates (Some (too_many_requests None)) 3 4 40 60);
    [reflexivity | reflexivity | lia].
Defined.

Lemma lower_app (a b : string) :
  PyStr.lower (a ++ b) = PyStr.lower a ++ PyStr.lower b.
Proof.
  induction a as [| c a IH]; simpl; [reflexivity | now rewrite IH].
Qed.

Lemma prefix_nil (s : string) : String.prefix "" s = true.
Proof. destruct s; reflexivity. Qed.

Lemma prefix_app (needle rest : string) :
  String.prefix needle (needle ++ rest) = true.
Proof.
  induction needle as [| c needle IH]; simpl; [apply prefix_nil |].
  destruct (ascii_dec c c) as [_ | Hne]; [exact IH | now elim Hne].
Qed.

Lemma contains_here (needle hay : string) :
  String.prefix needle hay = true -> PyStr.contains needle hay = true.
Proof.
  intros H. destruct hay; cbn [PyStr.contains]; now rewrite H.
Qed.

Lemma contains_later (needle : string) (c : ascii) (hay : string) :
  PyStr.contains needle hay = true -> PyStr.contains needle (String c hay) = true.
Proof.
  intros H. cbn [PyStr.contains]. rewrite H.
  now destruct (String.prefix needle (String c hay)).
Qed.

Lemma contains_app (needle before after : string) :
  PyStr.contains needle (before ++ needle ++ after) = true.
Proof.
  induction before as [| c before IH].
  - cbn [append]. apply contains_here, prefix_app.
  - cbn [append]. apply contains_later, IH.
Qed.

(** X4. The phrase is looked for in the lower-cased body: a failure whose
    body holds "rate limit exceeded" in any mix of upper and lower case is
    backed off, whatever its status code. *)
Theorem phrase_in_any_case_is_backed_off
        (r : Response) (h : Headers) (before phrase after : string) (attempt : nat) :
  headers r = Some h ->
  text r = before ++ phrase ++ after ->
  PyStr.lower phrase = "rate limit exceeded" ->
  rate_limited r = true
  /\ exists delay, backoff_delay (Some r) attempt = inr delay /\ 2 <= delay <= 60.
Proof.
  intros Hh Htext Hphrase.
  assert (Hrl : rate_limited r = true).
  { apply rate_limited_iff. right.
    rewrite Htext, !lower_app, Hphrase. apply contains_app. }
  split; [exact Hrl |].
  destruct (backoff_delay (Some r) attempt) as [e | delay] eqn:Hdelay.
  - apply backoff_delay_raises in Hdelay as [_ [Hnone | (r' & [= <-] & [Hno | Hnot])]];
      congruence.
  - exists delay. split; [reflexivity |].
    pose proof (backoff_delay_at_least _ _ _ Hdelay).
    pose proof (backoff_delay_bounded _ _ _ Hdelay).
    unfold MIN_DELAY, MAX_DELAY in *. lia.
Qed.

Lemma phrase_in_any_case_is_backed_off_witness :
  rate_limited (mkResponse 503 (Some []) "Error: RATE Limit Exceeded, slow down" None)
  = true
  /\ exists delay,
      backoff_delay
        (Some (mkResponse 503 (Some []) "Error: RATE Limit Exceeded, slow down" None)) 1
      = inr delay /\ 2 <= delay <= 60.
Proof.
  apply (phrase_in_any_case_is_backed_off
           (mkResponse 503 (Some []) "Error: RATE Limit Exceeded, slow down" None)
           [] "Error: " "RATE Limit Exceeded" ", slow down" 1);
    reflexivity.
Defined.

(* ------------------------------------------------------------------ *)
(** ** Method retry wrapper, beyond the limits *)

Section RetryWrapperLog.
Context {World : Type} {clock : Clock World} {A : Type}.
Variable confluence_call : World -> Result A * World.

Lemma handle_raises_unclassified (response : option Response) (attempt : nat)
      (t : Q) (e : Exn) :
  _handle_http_error response attempt t = inl e ->
  e = HTTPError response
  /\ rate_limit_failure (A := A) (inl (HTTPError response)) = false.
Proof.
  unfold _handle_http_error.
  destruct (backoff_delay response attempt) as [e' | d] eqn:Hd; [| discriminate].
  intros [= <-].
  apply backoff_delay_raises in Hd as [-> Hwhy]. split; [reflexivity |].
  unfold rate_limit_failure.
  destruct Hwhy as [-> | (r & -> & [-> | Hrl])]; [reflexivity | reflexivity |].
  rewrite Hrl. now destruct (headers r).
Qed.

Lemma handle_returns_classified (response : option Response) (attempt : nat)
      (t : Q) (delay_until : Z) :
  _handle_http_error response attempt t = inr delay_until ->
  rate_limit_failure (A := A) (inl (HTTPError response)) = true.
Proof.
  unfold _handle_http_error.
  destruct (backoff_delay response attempt) as [e' | d] eqn:Hd; [discriminate |].
  intros _. apply backoff_delay_returns in Hd as (r & h & -> & Hh & Hrl).
  unfold rate_limit_failure. now rewrite Hh.
Qed.

(** The shape of every log: retryable failures, then one last attempt
    that decides the outcome unless it is retryable itself. *)
Lemma retry_loop_log (fuel : nat) (timeout_at : Q) :
  forall (todo : list nat) (w : World),
    let run := retry_loop confluence_call fuel timeout_at todo w in
    (attempts run = [] /\ no_value (outcome run))
    \/ exists init final,
        attempts run = (init ++ [final])%list
        /\ forallb retryable init = true
        /\ match final with
           | inr v => outcome run = Returned v
           | inl e =>
               no_value (outcome run)
               /\ (retryable final = false -> outcome run = Raised e)
           end.
Proof.
  induction todo as [| attempt rest IH]; intros w; simpl.
  - left. split; [reflexivity | exact I].
  - destruct (Qltb timeout_at (monotonic w)); simpl.
    { left. split; [reflexivity | exact I]. }
    destruct (confluence_call w) as [r w1]. right.
    assert (Hstop : forall o : Outcome A,
               match r with
               | inr v => o = Returned v
               | inl e => no_value o /\ (retryable r = false -> o = Raised e)
               end ->
               exists init final,
                 attempts (logged r (mkRun o [] w1)) = (init ++ [final])%list
                 /\ forallb retryable init = true
                 /\ match final with
                    | inr v => outcome (logged r (mkRun o [] w1)) = Returned v
                    | inl e =>
                        no_value (outcome (logged r (mkRun o [] w1)))
                        /\ (retryable final = false
                            -> outcome (logged r (mkRun o [] w1)) = Raised e)
                    end).
    { intros o Ho. exists [], r. repeat split; try reflexivity.
      destruct r; exact Ho. }
    assert (Hgo : retryable r = true ->
               forall w2,
               exists init final,
                 attempts (logged r (retry_loop confluence_call fuel timeout_at rest w2))
                 = (init ++ [final])%list
                 /\ forallb retryable init = true
                 /\ match final with
                    | inr v =>
                        outcome (logged r (retry_loop confluence_call fuel timeout_at
                                             rest w2)) = Returned v
                    | inl e =>
                        no_value (outcome (logged r (retry_loop confluence_call fuel
                                                       timeout_at rest w2)))
                        /\ (retryable final = false
                            -> outcome (logged r (retry_loop confluence_call fuel
                                                    timeout_at rest w2)) = Raised e)
                    end).
    { intros Hr w2. specialize (IH w2). simpl in IH.
      destruct IH as [[Hnil Hnone] | (init & final & Hlog & Hinit & Hfinal)].
      - exists [], r. simpl. rewrite Hnil. repeat split; try reflexivity.
        destruct r as [e | v]; [| discriminate Hr].
        split; [exact Hnone | congruence].
      - exists (r :: init), final. simpl. rewrite Hlog, Hr, Hinit.
        repeat split; try reflexivity. exact Hfinal. }
    destruct r as [e | v].
    + destruct e;
        try (apply Hstop; split; [exact I | intros _; reflexivity]).
      * destruct (_handle_http_error response attempt (monotonic w1))
          as [e | delay_until] eqn:Hhandle.
        -- apply handle_raises_unclassified in Hhandle as [-> _].
           apply Hstop. split; [exact I | intros _; reflexivity].
        -- apply handle_returns_classified in Hhandle.
           assert (Hr : retryable (A := A) (inl (HTTPError response)) = true)
             by (unfold retryable; now rewrite Hhandle).
           destruct (sleep_until fuel delay_until w1) as [w2 |].
           ++ apply (Hgo Hr).
           ++ apply Hstop. split; [exact I | intros Hno; congruence].
      * destruct (Nat.eqb attempt _).
        -- apply Hstop. split; [exact I | intros _; reflexivity].
        -- apply (Hgo eq_refl).
    + apply Hstop. reflexivity.
Qed.

End RetryWrapperLog.

Section RetryWrapperMore.
Context {World : Type} {clock : Clock World} {A : Type}.
Variable confluence_call : World -> Result A * World.

Lemma not_past_own_deadline (w : World) :
  Qltb (monotonic w + inject_Z TIMEOUT) (monotonic w) = false.
Proof.
  unfold Qltb. apply negb_false_iff, Qle_bool_iff.
  unfold TIMEOUT. change (inject_Z 600) with 600%Q. lra.
Qed.

(** X5. The first attempt is always made: the deadline is set from the
    clock at the invocation and cannot have passed yet. A call that
    succeeds at once is returned as it is, with no wait, however long the
    call itself took. *)
Theorem first_attempt_is_always_made (fuel : nat) (w : World) :
  (exists rest,
      attempts (wrapped_call confluence_call fuel w) = fst (confluence_call w) :: rest)
  /\ forall v,
      fst (confluence_call w) = inr v ->
      wrapped_call confluence_call fuel w
      = mkRun (Returned v) [inr v] (snd (confluence_call w)).
Proof.
  unfold wrapped_call, range, MAX_RETRIES. cbn [seq retry_loop].
  rewrite not_past_own_deadline.
  destruct (confluence_call w) as [r w1]. cbn [fst snd]. split.
  - unfold logged. cbn [attempts]. eexists. reflexivity.
  - intros v ->. reflexivity.
Qed.

Lemma retryable_value (v : A) : retryable (inr v) = false.
Proof. reflexivity. Qed.

(** X6. A value reaches the caller exactly when the last attempt
    returned it: every attempt before it was a retryable failure, and no
    attempt is made after a success. *)
Theorem success_is_the_last_attempt (fuel : nat) (w : World) (v : A) :
  (outcome (wrapped_call confluence_call fuel w) = Returned v ->
   exists init,
     attempts (wrapped_call confluence_call fuel w) = (init ++ [inr v])%list
     /\ forallb retryable init = true)
  /\ (In (inr v) (attempts (wrapped_call confluence_call fuel w)) ->
      outcome (wrapped_call confluence_call fuel w) = Returned v).
Proof.
  unfold wrapped_call.
  pose proof (retry_loop_log confluence_call fuel
                (monotonic w + inject_Z TIMEOUT) (range MAX_RETRIES) w) as Hlog.
  cbv zeta in Hlog.
  destruct Hlog as [[Hnil Hnone] | (init & final & Hlog & Hinit & Hfinal)].
  - split.
    + intros Hout. rewrite Hout in Hnone. contradiction.
    + rewrite Hnil. intros [].
  - split.
    + intros Hout. destruct final as [e | v'].
      * destruct Hfinal as [Hnone _]. rewrite Hout in Hnone. contradiction.
      * exists init. split; [| exact Hinit].
        rewrite Hfinal in Hout. injection Hout as ->. exact Hlog.
    + rewrite Hlog. intros Hin. apply in_app_or in Hin as [Hin | [Heq | []]].
      * rewrite forallb_forall in Hinit. apply Hinit in Hin. discriminate.
      * subst final. exact Hfinal.
Qed.

(** X7. A failure that is neither a rate-limit failure nor an
    [AttributeError] is not retried: it is the last attempt of the run and
    is raised to the caller as it is, whichever attempt it was. *)
Theorem other_failure_is_raised_at_once (fuel : nat) (w : World) (e : Exn) :
  In (inl e) (attempts (wrapped_call confluence_call fuel w)) ->
  retryable (A := A) (inl e) = false ->
  outcome (wrapped_call confluence_call fuel w) = Raised e
  /\ exists init,
      attempts (wrapped_call confluence_call fuel w) = (init ++ [inl e])%list
      /\ forallb retryable init = true.
Proof.
  unfold wrapped_call.
  pose proof (retry_loop_log confluence_call fuel
                (monotonic w + inject_Z TIMEOUT) (range MAX_RETRIES) w) as Hlog.
  cbv zeta in Hlog.
  destruct Hlog as [[Hnil Hnone] | (init & final & Hlog & Hinit & Hfinal)].
  - rewrite Hnil. intros [].
  - rewrite Hlog. intros Hin Hno.
    apply in_app_or in Hin as [Hin | [Heq | []]].
    + rewrite forallb_forall in Hinit. apply Hinit in Hin. congruence.
    + subst final. destruct Hfinal as [_ Hraise]. split; [exact (Hraise Hno) |].
      exists init. split; [reflexivity | exact Hinit].
Qed.

Lemma retry_loop_started (fuel : nat) (timeout_at : Q) (attempt : nat)
      (rest : list nat) (w : World) :
  attempts (retry_loop confluence_call fuel timeout_at (attempt :: rest) w) = [] ->
  outcome (retry_loop confluence_call fuel timeout_at (attempt :: rest) w)
  = Raised timeout_error.
Proof.
  cbn [retry_loop].
  destruct (Qltb timeout_at (monotonic w)); [reflexivity |].
  destruct (confluence_call w) as [r w1]. unfold logged. cbn [attempts]. discriminate.
Qed.

Lemma attribute_error_position (fuel : nat) (timeout_at : Q) :
  forall (n a : nat) (w : World) (k : nat),
    (a + n = MAX_RETRIES)%nat ->
    nth_error (attempts (retry_loop confluence_call fuel timeout_at (seq a n) w)) k
    = Some (inl AttributeError) ->
    ((a + k = 4)%nat ->
     outcome (retry_loop confluence_call fuel timeout_at (seq a n) w)
     = Raised AttributeError
     /\ List.length (attempts (retry_loop confluence_call fuel timeout_at (seq a n) w))
        = S k)
    /\ ((a + k < 4)%nat ->
        (S k < List.length
                 (attempts (retry_loop confluence_call fuel timeout_at (seq a n) w)))%nat
        \/ outcome (retry_loop confluence_call fuel timeout_at (seq a n) w)
           = Raised timeout_error).
Proof.
  unfold MAX_RETRIES.
  induction n as [| n IH]; intros a w k Hsum Hnth.
  - destruct k; discriminate Hnth.
  - assert (Hrec : forall w2 k',
               k = S k' ->
               nth_error (attempts (retry_loop confluence_call fuel timeout_at
                                      (seq (S a) n) w2)) k'
               = Some (inl AttributeError) ->
               forall r : Result A,
                 ((a + k = 4)%nat ->
                  outcome (logged r (retry_loop confluence_call fuel timeout_at
                                       (seq (S a) n) w2))
                  = Raised AttributeError
                  /\ List.length
                       (attempts (logged r (retry_loop confluence_call fuel timeout_at
                                              (seq (S a) n) w2))) = S k)
                 /\ ((a + k < 4)%nat ->
                     (S k < List.length
                              (attempts (logged r (retry_loop confluence_call fuel
                                                     timeout_at (seq (S a) n) w2))))%nat
                     \/ outcome (logged r (retry_loop confluence_call fuel timeout_at
                                             (seq (S a) n) w2))
                        = Raised timeout_error)).
    { intros w2 k' -> Hnth' r.
      destruct (IH (S a) w2 k' ltac:(lia) Hnth') as [Hlast Hearly].
      unfold logged. cbn [outcome attempts List.length]. split.
      - intros H4. destruct Hlast as [Hout Hlen]; [lia |]. now rewrite Hlen.
      - intros H4. destruct Hearly as [Hlen | Hout]; [lia | left; lia | now right]. }
    cbn [seq retry_loop] in *.
    destruct (Qltb timeout_at (monotonic w)).
    { destruct k; discriminate Hnth. }
    destruct (confluence_call w) as [r w1].
    destruct k as [| k'].
    + cbn [logged attempts nth_error] in Hnth. injection Hnth as ->.
      rewrite Nat.add_0_r.
      destruct (Nat.eqb a _) eqn:Ha.
      * apply Nat.eqb_eq in Ha. unfold MAX_RETRIES in Ha.
        split; [intros _; split; reflexivity | lia].
      * apply Nat.eqb_neq in Ha. unfold MAX_RETRIES in Ha. split; [lia |]. intros _.
        unfold logged. cbn [outcome attempts List.length].
        destruct n as [| n']; [simpl in *; lia |].
        cbn [seq].
        destruct (attempts (retry_loop confluence_call fuel timeout_at
                              (S a :: seq (S (S a)) n') (sleep 5 w1))) eqn:Hatt.
        -- right. now apply retry_loop_started.
        -- left. simpl. lia.
    + destruct r as [e | v].
      2: { unfold logged in Hnth. cbn [attempts nth_error] in Hnth.
           destruct k'; discriminate Hnth. }
      destruct e;
        try (unfold logged in Hnth; cbn [attempts nth_error] in Hnth;
             destruct k'; discriminate Hnth).
      * destruct (_handle_http_error response a (monotonic w1)) as [e | delay_until].
        { unfold logged in Hnth. cbn [attempts nth_error] in Hnth.
          destruct k'; discriminate Hnth. }
        destruct (sleep_until fuel delay_until w1) as [w2 |].
        2: { unfold logged in Hnth. cbn [attempts nth_error] in Hnth.
             destruct k'; discriminate Hnth. }
        apply (Hrec w2 k' eq_refl). exact Hnth.
      * destruct (Nat.eqb a _).
        { unfold logged in Hnth. cbn [attempts nth_error] in Hnth.
          destruct k'; discriminate Hnth. }
        apply (Hrec (sleep 5 w1) k' eq_refl). exact Hnth.
Qed.

(** X8. An [AttributeError] of the client library is swallowed on the
    first four attempts, after which the next attempt is made unless the
    deadline has passed; on the fifth attempt it ends the run and is raised. *)
Theorem attribute_error_is_raised_on_fifth_attempt (fuel : nat) (w : World) (k : nat) :
  nth_error (attempts (wrapped_call confluence_call fuel w)) k
  = Some (inl AttributeError) ->
  (k = 4%nat ->
   outcome (wrapped_call confluence_call fuel w) = Raised AttributeError
   /\ List.length (attempts (wrapped_call confluence_call fuel w)) = 5%nat)
  /\ ((k < 4)%nat ->
      (S k < List.length (attempts (wrapped_call confluence_call fuel w)))%nat
      \/ outcome (wrapped_call confluence_call fuel w) = Raised timeout_error).
Proof.
  unfold wrapped_call, range. intros Hnth.
  destruct (attribute_error_position fuel (monotonic w + inject_Z TIMEOUT)
              MAX_RETRIES 0 w k eq_refl Hnth) as [Hlast Hearly].
  split.
  - intros ->. apply Hlast. reflexivity.
  - intros Hk. apply Hearly. exact Hk.
Qed.

Lemma sleep_until_reaches (delay_until : Z) :
  forall (fuel : nat) (w w' : World),
    sleep_until fuel delay_until w = Some w' ->
    (inject_Z delay_until <= monotonic w')%Q.
Proof.
  induction fuel as [| f IH]; intros w w'; simpl; [discriminate |].
  unfold Qltb.
  destruct (Qle_bool (inject_Z delay_until) (monotonic w)) eqn:Hle; simpl.
  - intros [= <-]. now apply Qle_bool_iff.
  - apply IH.
Qed.

End RetryWrapperMore.

Lemma other_failure_is_raised_at_once_witness :
  outcome (wrapped_call timed_call 62 server_error_once)
  = Raised (HTTPError (Some (error_page 500)))
  /\ exists init,
      attempts (wrapped_call timed_call 62 server_error_once)
      = (init ++ [inl (HTTPError (Some (error_page 500)))])%list
      /\ forallb retryable init = true.
Proof.
  apply (other_failure_is_raised_at_once timed_call 62 server_error_once
           (HTTPError (Some (error_page 500)))).
  - left. reflexivity.
  - reflexivity.
Defined.

Lemma attribute_error_is_raised_on_fifth_attempt_witness :
  (4%nat = 4%nat ->
   outcome (wrapped_call timed_call 62 attribute_errors) = Raised AttributeError
   /\ List.length (attempts (wrapped_call timed_call 62 attribute_errors)) = 5%nat)
  /\ ((4 < 4)%nat ->
      (5 < List.length (attempts (wrapped_call timed_call 62 attribute_errors)))%nat
      \/ outcome (wrapped_call timed_call 62 attribute_errors) = Raised timeout_error).
Proof.
  apply (attribute_error_is_raised_on_fifth_attempt timed_call 62 attribute_errors 4).
  reflexivity.
Defined.

(* ------------------------------------------------------------------ *)
(** ** Cursor-paginating fetcher, beyond single steps *)

Lemma truthy_app_char (a : string) (c : ascii) (b : string) :
  PyStr.truthy (a ++ String c b) = true.
Proof. destruct a; reflexivity. Qed.

Lemma initial_url_truthy (path : string) (limit0 : option Z) :
  PyStr.truthy (url_suffix (initial_state path limit0)) = true.
Proof.
  unfold initial_state. cbn [url_suffix].
  destruct (PyStr.contains "?" path); apply truthy_app_char.
Qed.

Lemma halvings_bound :
  forall (limits : list Z) (previous : Z),
    halving_chain previous limits ->
    (0 < halvings previous limits)%nat ->
    25 * 2 ^ Z.of_nat (halvings previous limits) <= previous.
Proof.
  unfold _MINIMUM_PAGINATION_LIMIT.
  induction limits as [| l rest IH]; intros previous Hchain Hsome;
    cbn [halvings halving_chain map] in *; [lia |].
  destruct Hchain as [[-> | [Hgt ->]] Hchain]; unfold _MINIMUM_PAGINATION_LIMIT in *.
  - rewrite Z.ltb_irrefl in *. apply IH; assumption.
  - assert (Hhalf : previous / 2 < previous) by (apply Z.div_lt; lia).
    apply Z.ltb_lt in Hhalf. rewrite Hhalf in *. clear Hhalf.
    rewrite Nat2Z.inj_succ, Z.pow_succ_r by lia.
    pose proof (Z.mul_div_le previous 2 ltac:(lia)) as Hdouble.
    destruct (halvings (previous / 2) rest) as [| k] eqn:Hk.
    + change (2 ^ Z.of_nat 0) with 1. lia.
    + specialize (IH (previous / 2) Hchain). rewrite Hk in IH.
      specialize (IH ltac:(lia)). lia.
Qed.

Section FetcherRuns.
Context {World : Type} {transport : Transport World} {utils : UrlUtils}.

(** X10. A retrieval always makes a first GET, also for an empty
    [url_suffix]: the limit is appended before the loop tests the URL, after
    "&" when the URL already holds a "?" and after "?" otherwise. *)
Theorem first_request_is_always_made
        (fuel : nat) (path : string) (limit0 : option Z) (auto_paginate : bool)
        (w : World) :
  (exists rest,
      requests (_paginate_url (S fuel) path limit0 auto_paginate w)
      = initial_state path limit0 :: rest)
  /\ url_suffix (initial_state path limit0)
     = path ++ (if PyStr.contains "?" path then "&" else "?")
         ++ "limit=" ++ PyStr.str (limit (initial_state path limit0)).
Proof.
  split; [| reflexivity].
  unfold _paginate_url.
  destruct (http_get w (url_suffix (initial_state path limit0))) as [got w1] eqn:Hget.
  rewrite (fetch_loop_step fuel auto_paginate _ w w1 got
             (initial_url_truthy path limit0) Hget).
  destruct (loop_body auto_paginate (initial_state path limit0) got);
    cbn [emit requests]; eexists; reflexivity.
Qed.

(** X11. The limit goes down at most a logarithmic number of times in a
    retrieval: after k reductions, 25 * 2^k is no more than the starting
    limit. From the default of 1000 that is at most five reductions. *)
Theorem limit_is_halved_a_bounded_number_of_times
        (fuel : nat) (path : string) (limit0 : option Z) (auto_paginate : bool)
        (w : World) :
  let start := limit (initial_state path limit0) in
  let k := halvings start
             (map limit (requests (_paginate_url fuel path limit0 auto_paginate w))) in
  ((0 < k)%nat -> 25 * 2 ^ Z.of_nat k <= start)
  /\ (limit0 = None -> (k <= 5)%nat).
Proof.
  intros start k.
  assert (Hbound : (0 < k)%nat -> 25 * 2 ^ Z.of_nat k <= start).
  { apply halvings_bound.
    apply (fetch_loop_limits fuel auto_paginate (initial_state path limit0) w). }
  split; [exact Hbound |].
  intros Hdefault.
  destruct (Nat.le_gt_cases k 5) as [Hle | Hgt]; [exact Hle | exfalso].
  assert (Hstart : start = 1000) by (unfold start; now rewrite Hdefault).
  specialize (Hbound ltac:(lia)).
  assert (2 ^ 6 <= 2 ^ Z.of_nat k) by (apply Z.pow_le_mono_r; lia).
  change (2 ^ 6) with 64 in *. lia.
Qed.

End FetcherRuns.

Lemma limit_is_halved_a_bounded_number_of_times_witness :
  ((0 < 5)%nat -> 25 * 2 ^ Z.of_nat 5 <= 1000)
  /\ (@None Z = None -> (5 <= 5)%nat).
Proof.
  exact (limit_is_halved_a_bounded_number_of_times
           10 "rest/api/content/search?cql=type=page" None false
           (repeat (inr (error_page 500)) 6)).
Defined.

Lemma prefix_cons (a : ascii) (s1 : string) (b : ascii) (s2 : string) :
  String.prefix (String a s1) (String b s2)
  = if ascii_dec a b then String.prefix s1 s2 else false.
Proof. reflexivity. Qed.

Lemma prefix_of_empty (a : ascii) (s1 : string) :
  String.prefix (String a s1) "" = false.
Proof. reflexivity. Qed.

(** Where the text still to be scanned starts with the expansion, so does
    the output start with the first letter of its replacement; a string
    without that letter then matches the output where it matches the text. *)
Lemma substitution_keeps_prefix :
  forall (q s : string),
    lacks "b" q = true ->
    String.prefix q (PyStr.replace_from 0 _PROBLEMATIC_EXPANSIONS
                       _REPLACEMENT_EXPANSIONS s)
    = String.prefix q s.
Proof.
  induction q as [| x q IH]; intros s Hlacks.
  - now rewrite !prefix_nil.
  - cbn [lacks] in Hlacks. apply andb_true_iff in Hlacks as [Hx Hq].
    apply negb_true_iff, Ascii.eqb_neq in Hx.
    destruct s as [| c s]; [reflexivity |].
    cbn [PyStr.replace_from].
    destruct (String.prefix _PROBLEMATIC_EXPANSIONS (String c s)) eqn:Hhere.
    + unfold _PROBLEMATIC_EXPANSIONS in Hhere. rewrite prefix_cons in Hhere.
      destruct (ascii_dec "b" c) as [<- | _]; [| discriminate].
      unfold _REPLACEMENT_EXPANSIONS. cbn [append]. rewrite !prefix_cons.
      now destruct (ascii_dec x "b").
    + rewrite !prefix_cons. destruct (ascii_dec x c); [apply IH, Hq | reflexivity].
Qed.

Lemma substitution_leaves_none :
  forall (s : string) (skip : nat),
    PyStr.contains _PROBLEMATIC_EXPANSIONS
      (PyStr.replace_from skip _PROBLEMATIC_EXPANSIONS _REPLACEMENT_EXPANSIONS s)
    = false.
Proof.
  induction s as [| c s IH]; intros skip; [reflexivity |].
  cbn [PyStr.replace_from].
  destruct skip as [| skip]; [| apply IH].
  destruct (String.prefix _PROBLEMATIC_EXPANSIONS (String c s)) eqn:Hhere.
  - specialize (IH (String.length _PROBLEMATIC_EXPANSIONS - 1)%nat).
    unfold _REPLACEMENT_EXPANSIONS. cbn [append].
    unfold _PROBLEMATIC_EXPANSIONS in *.
    cbn -[PyStr.replace_from] in *. exact IH.
  - assert (Hout : String.prefix _PROBLEMATIC_EXPANSIONS
                     (String c (PyStr.replace_from 0 _PROBLEMATIC_EXPANSIONS
                                  _REPLACEMENT_EXPANSIONS s))
                   = false).
    { unfold _PROBLEMATIC_EXPANSIONS at 1. rewrite prefix_cons.
      unfold _PROBLEMATIC_EXPANSIONS in Hhere at 1. rewrite prefix_cons in Hhere.
      destruct (ascii_dec "b" c); [| reflexivity].
      rewrite substitution_keeps_prefix; [exact Hhere | reflexivity]. }
    cbn [PyStr.contains]. rewrite Hout. apply IH.
Qed.

Section FetcherSubstitution.
Context {World : Type} {transport : Transport World} {utils : UrlUtils}.

(** X12. When a GET fails and the URL holds the problematic expansion,
    the expansion is replaced and the request tried again with the same
    limit, whatever the status: this comes before the halving of the limit
    and before giving up. The rewritten URL holds the problematic
    expansion nowhere, so a second failure is not answered by another
    substitution. *)
Theorem expansion_is_substituted_once
        (fuel : nat) (auto_paginate : bool) (st : PageState) (w w1 : World)
        (r : Response) :
  PyStr.truthy (url_suffix st) = true ->
  http_get w (url_suffix st) = (inr r, w1) ->
  400 <= status_code r < 600 ->
  PyStr.contains _PROBLEMATIC_EXPANSIONS (url_suffix st) = true ->
  fetch_loop (S fuel) auto_paginate st w
  = emit st []
      (fetch_loop fuel auto_paginate
         (mkPageState
            (PyStr.replace _PROBLEMATIC_EXPANSIONS _REPLACEMENT_EXPANSIONS
               (url_suffix st))
            (limit st))
         w1)
  /\ PyStr.contains _PROBLEMATIC_EXPANSIONS
       (PyStr.replace _PROBLEMATIC_EXPANSIONS _REPLACEMENT_EXPANSIONS (url_suffix st))
     = false.
Proof.
  intros Hurl Hget Hstatus Hexp. split.
  - rewrite (fetch_loop_step fuel auto_paginate st w w1 (inr r) Hurl Hget).
    unfold loop_body.
    now rewrite (raise_for_status_error r Hstatus), Hexp.
  - apply (substitution_leaves_none (url_suffix st) 0).
Qed.

End FetcherSubstitution.

Lemma expansion_is_substituted_once_witness :
  fetch_loop 2 false
    (initial_state "rest/api/content/search?cql=type=page&expand=body.storage.value"
       None)
    [inr (error_page 500)]
  = emit
      (initial_state "rest/api/content/search?cql=type=page&expand=body.storage.value"
         None)
      []
      (fetch_loop 1 false
         (mkPageState
            "rest/api/content/search?cql=type=page&expand=body.view.value&limit=1000"
            1000)
         [])
  /\ PyStr.contains _PROBLEMATIC_EXPANSIONS
       "rest/api/content/search?cql=type=page&expand=body.view.value&limit=1000"
     = false.
Proof.
  apply (expansion_is_substituted_once
           1 false
           (initial_state
              "rest/api/content/search?cql=type=page&expand=body.storage.value" None)
           [inr (error_page 500)] [] (error_page 500));
    try reflexivity.
  simpl. lia.
Defined.

Section ScriptedRuns.
Context {utils : UrlUtils}.

Lemma next_cursor_plain (old next : string) (results : list Json) :
  (PyStr.contains "start" next = true ->
   get_start_param_from_url next - get_start_param_from_url old <= len results) ->
  next_cursor false old results next = next.
Proof.
  intros Hfine. unfold next_cursor. cbn [andb].
  destruct (PyStr.truthy next && PyStr.contains "start" next) eqn:Hstart;
    [| reflexivity].
  apply andb_true_iff in Hstart as [_ Hstart]. specialize (Hfine Hstart).
  replace (get_start_param_from_url next - get_start_param_from_url old
           >? len results) with false; [reflexivity |].
  symmetry. rewrite Z.gtb_ltb. apply Z.ltb_ge. exact Hfine.
Qed.

Lemma ok_page_step (auto_paginate : bool) (st : PageState) (results : list Json)
      (next : option string) :
  loop_body auto_paginate st (inr (ok_page results next))
  = Page results
      (mkPageState
         (next_cursor auto_paginate (url_suffix st) results
            (match next with Some link => link | None => "" end))
         (limit st)).
Proof.
  apply (loop_body_page auto_paginate st (ok_page results next)
           (JDict (("results", JList results)
                     :: match next with
                        | Some link => [("_links", JDict [("next", JStr link)])]
                        | None => []
                        end))); try reflexivity.
  destruct next; reflexivity.
Qed.

Lemma follows_truthy (pages : list (list Json * option string)) :
  forall cursor last,
    PyStr.truthy cursor = true -> follows cursor pages last ->
    PyStr.truthy last = true.
Proof.
  induction pages as [| [results [link |]] more IH]; intros cursor last Hcursor;
    cbn [follows].
  - now intros ->.
  - intros (Hlink & _ & Hmore). exact (IH link last Hlink Hmore).
  - intros [].
Qed.

Lemma fetch_through_pages (lim : Z) (rest : Script) (fuel : nat) :
  forall (pages : list (list Json * option string)) (cursor last : string),
    PyStr.truthy cursor = true ->
    follows cursor pages last ->
    fetch_loop (World := Script) (List.length pages + fuel) false (mkPageState cursor lim)
               (served pages ++ rest)%list
    = mkFetch
        (List.concat (map fst pages)
           ++ yielded (fetch_loop fuel false (mkPageState last lim) rest))%list
        (map (fun u => mkPageState u lim) (request_urls cursor pages)
           ++ requests (fetch_loop fuel false (mkPageState last lim) rest))%list
        (ending (fetch_loop fuel false (mkPageState last lim) rest))
        (world (fetch_loop fuel false (mkPageState last lim) rest)).
Proof.
  induction pages as [| [results [link |]] more IH]; intros cursor last Hcursor;
    cbn [follows].
  - intros ->.
    change (fetch_loop (World := Script)
              (List.length (@nil (list Json * option string)) + fuel) false
              (mkPageState cursor lim) (served [] ++ rest)%list)
      with (fetch_loop fuel false (mkPageState cursor lim) rest).
    cbn [map List.concat request_urls app].
    now destruct (fetch_loop fuel false (mkPageState cursor lim) rest).
  - intros (Hlink & Hfine & Hmore).
    change (fetch_loop (World := Script)
              (List.length ((results, Some link) :: more) + fuel) false
              (mkPageState cursor lim)
              (served ((results, Some link) :: more) ++ rest)%list)
      with (fetch_loop (S (List.length more + fuel)) false (mkPageState cursor lim)
              (inr (ok_page results (Some link)) :: (served more ++ rest))%list).
    cbn [map List.concat request_urls app fst snd].
    rewrite (fetch_loop_step (transport := scripted) _ false (mkPageState cursor lim)
               (inr (ok_page results (Some link)) :: (served more ++ rest))%list
               (served more ++ rest)%list (inr (ok_page results (Some link)))
               Hcursor eq_refl).
    rewrite ok_page_step. cbn [url_suffix limit].
    rewrite (next_cursor_plain cursor link results Hfine).
    rewrite (IH link last Hlink Hmore).
    unfold emit. cbn [yielded requests ending world].
    now rewrite <- app_assoc.
  - intros [].
Qed.

(** X13. Against a server whose pages follow one another with non-empty
    next links that need no correction, and whose last page has none, a
    retrieval without auto-pagination yields the records of all pages in
    page order, makes one request per page, ends normally, and takes no
    further answer from the server. *)
Theorem well_formed_pages_are_listed
        (lim : Z) (rest : Script) (fuel : nat)
        (pages : list (list Json * option string)) (cursor last : string)
        (last_results : list Json) :
  PyStr.truthy cursor = true ->
  follows cursor pages last ->
  fetch_loop (World := Script) (List.length pages + S fuel) false
             (mkPageState cursor lim)
             (served (pages ++ [(last_results, None)]) ++ rest)%list
  = mkFetch
      (List.concat (map fst pages) ++ last_results)%list
      (map (fun u => mkPageState u lim) (request_urls cursor pages ++ [last]))%list
      Done rest.
Proof.
  intros Hcursor Hfollows.
  pose proof (follows_truthy pages cursor last Hcursor Hfollows) as Hlast.
  unfold served. rewrite map_app, <- app_assoc. fold (served pages).
  rewrite (fetch_through_pages lim _ (S fuel) pages cursor last Hcursor Hfollows).
  cbn [map app fst snd].
  rewrite (fetch_loop_step (transport := scripted) fuel false (mkPageState last lim)
             (inr (ok_page last_results None) :: rest) rest
             (inr (ok_page last_results None)) Hlast eq_refl).
  rewrite ok_page_step. cbn [url_suffix limit].
  rewrite (next_cursor_plain last "" last_results) by discriminate.
  assert (Hdone : fetch_loop fuel false (mkPageState "" lim) rest
                  = mkFetch [] [] Done rest) by (destruct fuel; reflexivity).
  rewrite Hdone. unfold emit. cbn [yielded requests ending world].
  now rewrite app_nil_r, map_app.
Qed.

(** X14. When, after such pages, a GET ends the retrieval with an error,
    the records of the pages before it have all been yielded, in order;
    the failing request is the last one made. *)
Theorem failure_keeps_earlier_pages
        (lim : Z) (rest : Script) (fuel : nat)
        (pages : list (list Json * option string)) (cursor last : string)
        (got : Result Response) (results : list Json) (e : Exn) :
  PyStr.truthy cursor = true ->
  follows cursor pages last ->
  loop_body false (mkPageState last lim) got = Stop results e ->
  fetch_loop (World := Script) (List.length pages + S fuel) false
             (mkPageState cursor lim)
             (served pages ++ got :: rest)%list
  = mkFetch
      (List.concat (map fst pages) ++ results)%list
      (map (fun u => mkPageState u lim) (request_urls cursor pages ++ [last]))%list
      (Failed e) rest.
Proof.
  intros Hcursor Hfollows Hstop.
  pose proof (follows_truthy pages cursor last Hcursor Hfollows) as Hlast.
  rewrite (fetch_through_pages lim _ (S fuel) pages cursor last Hcursor Hfollows).
  rewrite (fetch_loop_step (transport := scripted) fuel false (mkPageState last lim) (got :: rest) rest got
             Hlast eq_refl).
  rewrite Hstop. cbn [yielded requests ending world].
  now rewrite map_app.
Qed.

End ScriptedRuns.

Lemma well_formed_pages_are_listed_witness :
  fetch_loop (World := Script) 5 false content_search
             (served (three_pages ++ [([JNum 5], None)]) ++ [inr (error_page 500)])%list
  = mkFetch [JNum 1; JNum 2; JNum 3; JNum 4; JNum 5]
      [content_search;
       mkPageState "rest/api/content/search?cql=type=page&start=2&limit=2" 1000;
       mkPageState "rest/api/content/search?cql=type=page&start=4&limit=2" 1000]
      Done [inr (error_page 500)].
Proof.
  apply (well_formed_pages_are_listed
           1000 [inr (error_page 500)] 2 three_pages
           "rest/api/content/search?cql=type=page&limit=1000"
           "rest/api/content/search?cql=type=page&start=4&limit=2" [JNum 5]).
  - reflexivity.
  - cbn [follows three_pages].
    repeat split; try reflexivity; intros _; vm_compute; discriminate.
Defined.

Lemma failure_keeps_earlier_pages_witness :
  fetch_loop (World := Script) 5 false content_search
             (served three_pages ++ [inr (error_page 404); inr (error_page 500)])%list
  = mkFetch [JNum 1; JNum 2; JNum 3; JNum 4]
      [content_search;
       mkPageState "rest/api/content/search?cql=type=page&start=2&limit=2" 1000;
       mkPageState "rest/api/content/search?cql=type=page&start=4&limit=2" 1000]
      (Failed (HTTPError (Some (error_page 404)))) [inr (error_page 500)].
Proof.
  apply (failure_keeps_earlier_pages
           1000 [inr (error_page 500)] 2 three_pages
           "rest/api/content/search?cql=type=page&limit=1000"
           "rest/api/content/search?cql=type=page&start=4&limit=2"
           (inr (error_page 404)) [] (HTTPError (Some (error_page 404)))).
  - reflexivity.
  - cbn [follows three_pages].
    repeat split; try reflexivity; intros _; vm_compute; discriminate.
  - reflexivity.
Defined.

Lemma update_param_truthy (path name value : string) :
  PyStr.truthy (UrlModel.update_param path name value) = true.
Proof.
  unfold UrlModel.update_param. cbn [append]. apply truthy_app_char.
Qed.

Section AutoPagination.
Context {World : Type} {transport : Transport World} {utils : UrlUtils}.

Lemma next_cursor_synthesized (old next : string) (results : list Json) :
  results <> [] ->
  next_cursor true old results next
  = update_param_in_path old "start"
      (PyStr.str (get_start_param_from_url old + len results)).
Proof.
  intros Hsome. unfold next_cursor.
  replace (len results >? 0) with true; [reflexivity |].
  destruct results; [contradiction | reflexivity].
Qed.

(** X15. With auto-pagination the server's next link plays no part after
    a page that holds records: the next cursor is always made from the
    previous one. So as long as every page holds a record and the rewritten
    cursor is not empty, the retrieval never ends by itself, whether or not
    the server sends a next link: however many rounds it is given, it
    makes a request in each of them and is still running. *)
Theorem auto_pagination_stops_only_on_empty_page (fuel : nat) :
  (forall (w : World) (cursor : string),
      exists r w1 body results next,
        http_get w cursor = (inr r, w1)
        /\ raise_for_status r = None
        /\ json r = Some body
        /\ page_results body = inr results
        /\ results <> []
        /\ page_next body = inr next) ->
  (forall path name value, PyStr.truthy (update_param_in_path path name value) = true) ->
  forall (st : PageState) (w : World),
    PyStr.truthy (url_suffix st) = true ->
    ending (fetch_loop fuel true st w) = OutOfFuel
    /\ List.length (requests (fetch_loop fuel true st w)) = fuel.
Proof.
  intros Hserver Hcursor.
  induction fuel as [| f IH]; intros st w Hurl.
  - simpl. rewrite Hurl. split; reflexivity.
  - destruct (Hserver w (url_suffix st))
      as (r & w1 & body & results & next & Hget & Hok & Hjson & Hres & Hsome & Hnext).
    rewrite (fetch_loop_step f true st w w1 (inr r) Hurl Hget).
    rewrite (loop_body_page true st r body results next Hok Hjson Hres Hnext).
    rewrite (next_cursor_synthesized _ next results Hsome).
    unfold emit. cbn [ending requests List.length].
    destruct (IH (mkPageState
                    (update_param_in_path (url_suffix st) "start"
                       (PyStr.str (get_start_param_from_url (url_suffix st)
                                   + len results)))
                    (limit st)) w1 (Hcursor _ _ _)) as [Hend Hlen].
    split; [exact Hend | now rewrite Hlen].
Qed.

End AutoPagination.

Lemma auto_pagination_stops_only_on_empty_page_witness :
  ending (fetch_loop (transport := same_page_forever (ok_page [JNum 1] None))
            7 true user_search tt) = OutOfFuel
  /\ List.length
       (requests (fetch_loop (transport := same_page_forever (ok_page [JNum 1] None))
                    7 true user_search tt)) = 7%nat.
Proof.
  apply (auto_pagination_stops_only_on_empty_page
           (transport := same_page_forever (ok_page [JNum 1] None)) 7).
  - intros w cursor.
    exists (ok_page [JNum 1] None), w, (JDict [("results", JList [JNum 1])]),
      [JNum 1], "".
    repeat split; discriminate.
  - exact update_param_truthy.
  - reflexivity.
Defined.

(** X16. [_wrap_methods] puts the retry wrapper around [get], so a page
    GET that is rate-limited on all five attempts comes back as [None].
    The fetcher then ends the retrieval with an [AttributeError], not with
    a rate-limit or timeout error; when the URL holds the problematic
    expansion it takes the failure for that defect instead, rewrites the
    URL and asks again. *)
Theorem exhausted_get_ends_in_attribute_error
        {World : Type} {clock : Clock World} {utils : UrlUtils}
        (raw_get : World -> Result Response * World) (fuel : nat) (w : World)
        (auto_paginate : bool) (st : PageState) :
  (forall (seconds : Z) (w' : World),
      (monotonic w' + inject_Z seconds <= monotonic (sleep seconds w'))%Q) ->
  (62 <= fuel)%nat ->
  List.length (attempts (wrapped_call raw_get fuel w)) = MAX_RETRIES ->
  forallb rate_limit_failure (attempts (wrapped_call raw_get fuel w)) = true ->
  (PyStr.contains _PROBLEMATIC_EXPANSIONS (url_suffix st) = false ->
   loop_body_wrapped auto_paginate st (outcome (wrapped_call raw_get fuel w))
   = Some (Stop [] AttributeError))
  /\ (PyStr.contains _PROBLEMATIC_EXPANSIONS (url_suffix st) = true ->
      loop_body_wrapped auto_paginate st (outcome (wrapped_call raw_get fuel w))
      = Some (Again (mkPageState
                       (PyStr.replace _PROBLEMATIC_EXPANSIONS _REPLACEMENT_EXPANSIONS
                          (url_suffix st))
                       (limit st)))).
Proof.
  intros Hsleep Hfuel Hlen Hall.
  assert (Hnone : outcome (wrapped_call raw_get fuel w) = ReturnedNone).
  { unfold wrapped_call in *.
    apply (all_rate_limited_returns_none raw_get Hsleep fuel _ Hfuel
             (range MAX_RETRIES) w); assumption. }
  rewrite Hnone. unfold loop_body_wrapped.
  split; intros ->; reflexivity.
Qed.

Lemma exhausted_get_ends_in_attribute_error_witness :
  (PyStr.contains _PROBLEMATIC_EXPANSIONS (url_suffix content_search) = false ->
   loop_body_wrapped false content_search
     (outcome (wrapped_call timed_call 62 limited_get))
   = Some (Stop [] AttributeError))
  /\ (PyStr.contains _PROBLEMATIC_EXPANSIONS (url_suffix content_search) = true ->
      loop_body_wrapped false content_search
        (outcome (wrapped_call timed_call 62 limited_get))
      = Some (Again (mkPageState
                       (PyStr.replace _PROBLEMATIC_EXPANSIONS _REPLACEMENT_EXPANSIONS
                          (url_suffix content_search))
                       (limit content_search)))).
Proof.
  apply (exhausted_get_ends_in_attribute_error timed_call 62 limited_get
           false content_search).
  - intros seconds w'. simpl. apply Qle_refl.
  - apply le_n.
  - reflexivity.
  - reflexivity.
Defined.

(* ------------------------------------------------------------------ *)
(** ** Nested-expansion resolver, beyond settled records *)

Lemma dict_set_keys (key : string) (v : Json) (fields : list (string * Json)) :
  map fst (dict_set key v fields) = map fst fields.
Proof.
  induction fields as [| [k old] rest IH]; [reflexivity |].
  cbn [dict_set]. destruct (String.eqb k key); cbn [map fst]; [reflexivity |].
  now rewrite IH.
Qed.

Lemma dict_get_set (key : string) (v old : Json) (fields : list (string * Json)) :
  dict_get key fields = Some old ->
  dict_get key (dict_set key v fields) = Some v.
Proof.
  induction fields as [| [k x] rest IH]; [discriminate |].
  cbn [dict_get dict_set].
  destruct (String.eqb k key) eqn:Hk; cbn [dict_get]; rewrite Hk; [reflexivity | exact IH].
Qed.

Section ResolverShape.
Context {World : Type} {transport : Transport World} {utils : UrlUtils}.

Lemma each_value_keys (visit : Json -> World -> Eff World Json) :
  forall (fields fields' : list (string * Json)) (w w' : World),
    each_value visit fields w = Ok fields' w' ->
    map fst fields' = map fst fields.
Proof.
  induction fields as [| [k v] rest IH]; intros fields' w w'; cbn [each_value bind].
  - now intros [= <- _].
  - destruct (visit v w) as [v' w1 | |]; cbn [bind]; try discriminate.
    destruct (each_value visit rest w1) as [rest' w2 | |] eqn:Hrest; cbn [bind];
      try discriminate.
    intros [= <- _]. cbn [map fst]. now rewrite (IH rest' w1 w2 Hrest).
Qed.

Lemma each_value_get (visit : Json -> World -> Eff World Json) (key : string) :
  forall (fields fields' : list (string * Json)) (w w' : World) (v : Json),
    each_value visit fields w = Ok fields' w' ->
    dict_get key fields = Some v ->
    exists v' wa wb, dict_get key fields' = Some v' /\ visit v wa = Ok v' wb.
Proof.
  induction fields as [| [k x] rest IH]; intros fields' w w' v; cbn [each_value bind];
    [discriminate 2 |].
  destruct (visit x w) as [x' w1 | |] eqn:Hx; cbn [bind]; try discriminate.
  destruct (each_value visit rest w1) as [rest' w2 | |] eqn:Hrest; cbn [bind];
    try discriminate.
  intros [= <- _]. cbn [dict_get].
  destruct (String.eqb k key).
  - intros [= <-]. now exists x', w, w1.
  - intros Hget. exact (IH rest' w1 w2 v Hrest Hget).
Qed.

Lemma each_item_length (visit : Json -> World -> Eff World Json) :
  forall (items items' : list Json) (w w' : World),
    each_item visit items w = Ok items' w' ->
    List.length items' = List.length items.
Proof.
  induction items as [| v rest IH]; intros items' w w'; cbn [each_item bind].
  - now intros [= <- _].
  - destruct (visit v w) as [v' w1 | |]; cbn [bind]; try discriminate.
    destruct (each_item visit rest w1) as [rest' w2 | |] eqn:Hrest; cbn [bind];
      try discriminate.
    intros [= <- _]. cbn [List.length]. now rewrite (IH rest' w1 w2 Hrest).
Qed.

Lemma extend_results_grows (fuel : nat) (next_url : option Json)
      (fields fields' : list (string * Json)) (w w' : World) :
  extend_results fuel next_url fields w = Ok fields' w' ->
  map fst fields' = map fst fields
  /\ exists results fetched,
      dict_get "results" fields = Some (JList results)
      /\ dict_get "results" fields' = Some (JList (results ++ fetched)).
Proof.
  unfold extend_results.
  destruct (dict_get "results" fields) as [[| | | | results |] |] eqn:Hget;
    try discriminate.
  destruct next_url as [[| | | link | |] |]; try discriminate.
  destruct (ending (_paginate_url fuel link None false w)); try discriminate.
  intros [= <- _]. split; [apply dict_set_keys |].
  exists results, (yielded (_paginate_url fuel link None false w)).
  split; [reflexivity |]. now apply (dict_get_set _ _ (JList results)).
Qed.

Lemma walk_of_list (fuel : nat) (items : list Json) (w w' : World) (data' : Json) :
  _traverse_and_update fuel (JList items) w = Ok data' w' ->
  exists items', data' = JList items' /\ List.length items' = List.length items.
Proof.
  destruct fuel as [| f]; [discriminate |].
  cbn [_traverse_and_update].
  destruct (each_item (_traverse_and_update f) items w) as [items' w1 | |] eqn:Hitems;
    cbn [bind]; try discriminate.
  intros [= <- _]. exists items'. split; [reflexivity |].
  exact (each_item_length _ _ _ _ _ Hitems).
Qed.

Lemma walk_of_dict (fuel : nat) (fields : list (string * Json)) (w w' : World)
      (data' : Json) :
  _traverse_and_update fuel (JDict fields) w = Ok data' w' ->
  exists f next_url fields1 w1 fields2,
    fuel = S f
    /\ next_link fields = inr next_url
    /\ (if opt_truthy next_url && dict_has "results" fields
        then extend_results f next_url fields w
        else Ok fields w) = Ok fields1 w1
    /\ each_value (_traverse_and_update f) fields1 w1 = Ok fields2 w'
    /\ data' = JDict fields2.
Proof.
  destruct fuel as [| f]; [discriminate |].
  cbn [_traverse_and_update].
  destruct (next_link fields) as [e | next_url]; [discriminate |].
  destruct (if opt_truthy next_url && dict_has "results" fields
            then extend_results f next_url fields w
            else Ok fields w) as [fields1 w1 | |] eqn:Hext; cbn [bind];
    try discriminate.
  destruct (each_value (_traverse_and_update f) fields1 w1) as [fields2 w2 | |]
    eqn:Hvalues; cbn [bind]; try discriminate.
  intros [= <- <-]. now exists f, next_url, fields1, w1, fields2.
Qed.

End ResolverShape.

(* ------------------------------------------------------------------ *)
(** ** Retrievals built on the fetcher *)

Section ForEachFacts.
Context {World : Type} {transport : Transport World} {utils : UrlUtils} {B : Type}.
Variable handle : Json -> World -> Eff World B.

Lemma handle_each_all (results : list Json) (bs : list B) :
  Forall2 (fun r b => forall w, handle r w = Ok b w) results bs ->
  forall w, handle_each handle results w = (bs, None, w).
Proof.
  induction 1 as [| r b results bs Hr _ IH]; intros w; cbn [handle_each];
    [reflexivity |].
  now rewrite Hr, IH.
Qed.

(** A body that leaves the world alone turns the records of the plain
    retrieval into its results and changes nothing else. *)
Lemma for_each_pure_body (auto_paginate : bool) :
  forall (fuel : nat) (st : PageState) (w : World) (bs : list B),
    Forall2 (fun r b => forall w', handle r w' = Ok b w')
            (yielded (fetch_loop fuel auto_paginate st w)) bs ->
    for_each_record handle fuel auto_paginate st w
    = mkRetrieval bs (requests (fetch_loop fuel auto_paginate st w))
        (ending (fetch_loop fuel auto_paginate st w))
        (world (fetch_loop fuel auto_paginate st w)).
Proof.
  induction fuel as [| f IH]; intros st w bs;
    cbn [for_each_record fetch_loop];
    destruct (negb (PyStr.truthy (url_suffix st)));
    try (cbn [yielded requests ending world]; now inversion 1).
  destruct (http_get w (url_suffix st)) as [got w1].
  destruct (loop_body auto_paginate st got) as [st' | results st' | results e];
    unfold emit, produce; cbn [yielded requests ending world].
  - intros Hall. now rewrite (IH st' w1 bs Hall).
  - intros Hall. apply Forall2_app_inv_l in Hall as (bs1 & bs2 & H1 & H2 & ->).
    rewrite (handle_each_all results bs1 H1 w1).
    now rewrite (IH st' w1 bs2 H2).
  - intros Hall. now rewrite (handle_each_all results bs Hall w1).
Qed.

End ForEachFacts.

Section RetrievalFacts.
Context {World : Type} {transport : Transport World} {utils : UrlUtils}.

Lemma settled_walk (fuel : nat) :
  forall (data : Json) (w : World),
    settled data = true ->
    (depth data < fuel)%nat ->
    _traverse_and_update fuel data w = Ok data w.
Proof.
  induction fuel as [| f IH]; intros data w Hsettled Hdepth; [lia |].
  destruct data as [| b | n | s | items | fields]; try reflexivity.
  - apply settled_items in Hsettled. apply depth_items in Hdepth.
    cbn [_traverse_and_update]. rewrite each_item_unchanged; [reflexivity |].
    rewrite Forall_forall in *. intros v Hin. apply IH; auto.
  - apply settled_fields in Hsettled as [(next_url & Hlink & Hidle) Hvalues].
    apply depth_fields in Hdepth.
    cbn [_traverse_and_update]. rewrite Hlink, Hidle. cbn [bind].
    rewrite each_value_unchanged; [reflexivity |].
    rewrite Forall_forall in *. intros kv Hin. apply IH; auto.
Qed.

(** X19. When every record of the top-level query is already settled
    (no mapping with both a continuation link and a "results" entry), the
    retrieval with all expansions yields the records of the plain
    retrieval as they are, with the same requests and the same end: the
    walk costs no request. *)
Theorem all_expansions_of_settled_records
        (fuel : nat) (cql : string) (expand : option string) (limit0 : option Z)
        (w : World) :
  Forall (fun record => settled record = true /\ (depth record < fuel)%nat)
         (yielded (paginated_cql_retrieval fuel cql expand limit0 w)) ->
  cql_paginate_all_expansions fuel cql expand limit0 w
  = mkRetrieval (yielded (paginated_cql_retrieval fuel cql expand limit0 w))
      (requests (paginated_cql_retrieval fuel cql expand limit0 w))
      (ending (paginated_cql_retrieval fuel cql expand limit0 w))
      (world (paginated_cql_retrieval fuel cql expand limit0 w)).
Proof.
  intros Hall.
  unfold cql_paginate_all_expansions, paginated_cql_retrieval, _paginate_url in *.
  apply for_each_pure_body.
  induction Hall as [| record records [Hsettled Hdepth] _ IH]; constructor.
  - intros w'. now apply settled_walk.
  - exact IH.
Qed.

Lemma cloud_user_has_no_username (record : Json) (u : ConfluenceUser.t) :
  cloud_user record = inr u -> ConfluenceUser.username u = None.
Proof.
  unfold cloud_user, and_then, ret.
  repeat match goal with
         | |- match ?x with _ => _ end = _ -> _ => destruct x; try discriminate
         end.
  now intros [= <-].
Qed.

Lemma server_user_has_no_email (record : Json) (u : ConfluenceUser.t) :
  server_user record = inr u -> ConfluenceUser.email u = None.
Proof.
  unfold server_user, and_then, ret.
  repeat match goal with
         | |- match ?x with _ => _ end = _ -> _ => destruct x; try discriminate
         end.
  now intros [= <-].
Qed.

(** X20. The user retrieval gives one user per raw record, in the order
    of the plain retrieval of its endpoint (auto-paginated on cloud, not
    on a data center), with the same requests and the same end, as long as
    every record maps to a user. Cloud users carry no user name and data
    center users no e-mail address. *)
Theorem users_follow_the_raw_records
        (fuel : nat) (cloud : bool) (expand : option string) (limit0 : option Z)
        (w : World) (users : list ConfluenceUser.t) :
  let raw :=
    if cloud
    then _paginate_url fuel ("rest/api/search/user?cql=type=user" ++ expand_string expand)
           limit0 true w
    else _paginate_url fuel "rest/api/user/list" limit0 false w in
  Forall2 (fun record user =>
             (if cloud then cloud_user record else server_user record) = inr user)
          (yielded raw) users ->
  paginated_cql_user_retrieval fuel cloud expand limit0 w
  = mkRetrieval users (requests raw) (ending raw) (world raw)
  /\ Forall (fun user =>
               if cloud then ConfluenceUser.username user = None
               else ConfluenceUser.email user = None)
            users.
Proof.
  intros raw Hall. split.
  - unfold paginated_cql_user_retrieval, raw, _paginate_url in *.
    destruct cloud; apply for_each_pure_body;
      (eapply Forall2_impl; [| exact Hall]);
      intros record user Hmap w'; unfold lift; now rewrite Hmap.
  - clear - Hall. induction Hall as [| record user records users Hmap _ IH];
      constructor; [| exact IH].
    destruct cloud;
      [exact (cloud_user_has_no_username record user Hmap)
      | exact (server_user_has_no_email record user Hmap)].
Qed.

End RetrievalFacts.

Lemma all_expansions_of_settled_records_witness :
  cql_paginate_all_expansions (transport := scripted) 5 "type=page" None None
    [inr (ok_page [JDict [("id", JStr "1")]; JDict [("id", JStr "2")]] None)]
  = mkRetrieval [JDict [("id", JStr "1")]; JDict [("id", JStr "2")]]
      [mkPageState "rest/api/content/search?cql=type=page&limit=1000" 1000]
      Done [].
Proof.
  apply (all_expansions_of_settled_records (transport := scripted) 5 "type=page"
           None None
           [inr (ok_page [JDict [("id", JStr "1")]; JDict [("id", JStr "2")]] None)]).
  repeat constructor.
Defined.

Lemma users_follow_the_raw_records_witness :
  paginated_cql_user_retrieval (transport := scripted) 5 false None None
    [inr (ok_page [server_record] None)]
  = mkRetrieval
      [ConfluenceUser.mk "40281082950c5fe901950c61c55d0000" (Some "admin") "Admin Test"
         None "known"]
      [mkPageState "rest/api/user/list?limit=1000" 1000] Done []
  /\ Forall (fun user => ConfluenceUser.email user = None)
            [ConfluenceUser.mk "40281082950c5fe901950c61c55d0000" (Some "admin")
               "Admin Test" None "known"].
Proof.
  apply (users_follow_the_raw_records (transport := scripted) 5 false None None
           [inr (ok_page [server_record] None)]).
  repeat constructor.
Defined.

Section MappingFailure.
Context {World : Type} {transport : Transport World} {utils : UrlUtils} {B : Type}.

Lemma handle_each_stops (f : Json -> Result B) (good : list Json) (bs : list B)
      (bad : Json) (more : list Json) (e : Exn) :
  Forall2 (fun record b => f record = inr b) good bs ->
  f bad = inl e ->
  forall w : World,
    handle_each (lift f) (good ++ bad :: more) w = (bs, Some (Failed e), w).
Proof.
  intros Hgood Hbad.
  induction Hgood as [| r b good bs Hr _ IH]; intros w; cbn [handle_each app].
  - unfold lift. now rewrite Hbad.
  - unfold lift at 1. rewrite Hr. now rewrite IH.
Qed.

(** X21. A record that cannot be turned into a result ends the retrieval
    there: the results of the records before it on the page have been
    handed out, its error is raised, the records after it are dropped and
    no further page is asked for. A cloud user record without its "user"
    entry does so with a [KeyError]. *)
Theorem unmappable_record_ends_the_retrieval
        (f : Json -> Result B) (fuel : nat) (auto_paginate : bool)
        (st st' : PageState) (w w1 : World) (got : Result Response)
        (good : list Json) (bs : list B) (bad : Json) (more : list Json) (e : Exn) :
  PyStr.truthy (url_suffix st) = true ->
  http_get w (url_suffix st) = (got, w1) ->
  loop_body auto_paginate st got = Page (good ++ bad :: more) st' ->
  Forall2 (fun record b => f record = inr b) good bs ->
  f bad = inl e ->
  for_each_record (lift f) (S fuel) auto_paginate st w
  = mkRetrieval bs [st] (Failed e) w1.
Proof.
  intros Hurl Hget Hpage Hgood Hbad.
  cbn [for_each_record]. rewrite Hurl, Hget. cbn [negb]. rewrite Hpage.
  now rewrite (handle_each_stops f good bs bad more e Hgood Hbad w1).
Qed.

End MappingFailure.

Lemma unmappable_record_ends_the_retrieval_witness :
  for_each_record (transport := scripted) (lift cloud_user) 3 true user_search
    [inr (ok_page [cloud_record; userless_record; cloud_record] None);
     inr (ok_page [cloud_record] None)]
  = mkRetrieval
      [ConfluenceUser.mk "712020:35e60fbb" None "Chris Weaver"
         (Some "chris@danswer.ai") "atlassian"]
      [user_search] (Failed (KeyError "user"))
      [inr (ok_page [cloud_record] None)].
Proof.
  apply (unmappable_record_ends_the_retrieval (transport := scripted)
           cloud_user 2 true user_search
           (mkPageState "rest/api/search/user?cql=type=user&limit=1000&start=3" 1000)
           [inr (ok_page [cloud_record; userless_record; cloud_record] None);
            inr (ok_page [cloud_record] None)]
           [inr (ok_page [cloud_record] None)]
           (inr (ok_page [cloud_record; userless_record; cloud_record] None))
           [cloud_record]
           [ConfluenceUser.mk "712020:35e60fbb" None "Chris Weaver"
              (Some "chris@danswer.ai") "atlassian"]
           userless_record [cloud_record] (KeyError "user"));
    try reflexivity.
  repeat constructor.
Defined.

(* ------------------------------------------------------------------ *)
(** ** URLs of the group retrievals *)

Lemma lacks_app (c : ascii) (a b : string) :
  lacks c (a ++ b) = lacks c a && lacks c b.
Proof.
  induction a as [| x a IH]; cbn [append lacks]; [reflexivity |].
  now rewrite IH, andb_assoc.
Qed.

Lemma lacks_contains (c : ascii) (s : string) :
  lacks c s = true -> PyStr.contains (String c EmptyString) s = false.
Proof.
  induction s as [| x s IH]; [reflexivity |].
  cbn [lacks]. intros H. apply andb_true_iff in H as [Hx Hs].
  apply negb_true_iff, Ascii.eqb_neq in Hx.
  cbn [PyStr.contains]. rewrite prefix_cons.
  destruct (ascii_dec c x) as [-> | _]; [now elim Hx | exact (IH Hs)].
Qed.

Lemma quote_byte_lacks (b : ascii) :
  lacks "?" (Quote.quote_byte b) = true
  /\ lacks "&" (Quote.quote_byte b) = true
  /\ lacks "=" (Quote.quote_byte b) = true.
Proof.
  destruct b as [[] [] [] [] [] [] [] []]; vm_compute; repeat split.
Qed.

Lemma quote_lacks (s : string) :
  lacks "?" (Quote.quote s) = true
  /\ lacks "&" (Quote.quote s) = true
  /\ lacks "=" (Quote.quote s) = true.
Proof.
  induction s as [| b s (IH1 & IH2 & IH3)]; [repeat split |].
  cbn [Quote.quote]. rewrite !lacks_app.
  destruct (quote_byte_lacks b) as (H1 & H2 & H3).
  now rewrite H1, H2, H3, IH1, IH2, IH3.
Qed.

Section GroupUrls.
Context {World : Type} {transport : Transport World} {utils : UrlUtils}.

Lemma first_request (fuel : nat) (path : string) (limit0 : option Z)
      (auto_paginate : bool) (w : World) :
  exists rest,
    requests (_paginate_url (S fuel) path limit0 auto_paginate w)
    = initial_state path limit0 :: rest.
Proof.
  unfold _paginate_url.
  destruct (http_get w (url_suffix (initial_state path limit0))) as [got w1] eqn:Hget.
  rewrite (fetch_loop_step fuel auto_paginate _ w w1 got
             (initial_url_truthy path limit0) Hget).
  destruct (loop_body auto_paginate (initial_state path limit0) got);
    cbn [emit requests]; eexists; reflexivity.
Qed.

(** X22. Whatever the group name, the members of a group are first asked
    for at "rest/api/group/<quoted name>/member?limit=<limit>": quoting
    leaves no "?" in the name, so the limit always opens the query and the
    name cannot bring a query of its own. *)
Theorem group_members_url
        (fuel : nat) (group_name : string) (limit0 : option Z) (w : World) :
  exists rest,
    requests (paginated_group_members_retrieval (S fuel) group_name limit0 w)
    = mkPageState
        (("rest/api/group/" ++ Quote.quote group_name ++ "/member")
           ++ "?limit=" ++ PyStr.str (limit (initial_state "" limit0)))
        (limit (initial_state "" limit0))
      :: rest.
Proof.
  unfold paginated_group_members_retrieval.
  destruct (first_request fuel ("rest/api/group/" ++ Quote.quote group_name ++ "/member")
              limit0 false w) as [rest Hrest].
  exists rest. rewrite Hrest. unfold initial_state.
  replace (PyStr.contains "?" ("rest/api/group/" ++ Quote.quote group_name ++ "/member"))
    with false; [reflexivity |].
  symmetry. apply lacks_contains. rewrite !lacks_app.
  destruct (quote_lacks group_name) as (-> & _ & _). reflexivity.
Qed.

(** X23. The groups of a user are first asked for at
    "rest/api/user/memberof?<field>=<quoted id>&limit=<limit>", the field
    being "accountId" on cloud and "key" on a data center; the quoted id
    holds no "&", "=" or "?", so it neither adds a parameter nor replaces
    the limit. *)
Theorem groups_by_user_url
        (fuel : nat) (cloud : bool) (user_id : string) (limit0 : option Z) (w : World) :
  (exists rest,
      requests (paginated_groups_by_user_retrieval (S fuel) cloud user_id limit0 w)
      = mkPageState
          (("rest/api/user/memberof?" ++ (if cloud then "accountId" else "key")
              ++ "=" ++ Quote.quote user_id)
             ++ "&limit=" ++ PyStr.str (limit (initial_state "" limit0)))
          (limit (initial_state "" limit0))
        :: rest)
  /\ lacks "&" (Quote.quote user_id) = true
  /\ lacks "=" (Quote.quote user_id) = true
  /\ lacks "?" (Quote.quote user_id) = true.
Proof.
  split; [| destruct (quote_lacks user_id) as (H1 & H2 & H3); now repeat split].
  unfold paginated_groups_by_user_retrieval.
  destruct (first_request fuel
              ("rest/api/user/memberof?" ++ (if cloud then "accountId" else "key")
                 ++ "=" ++ Quote.quote user_id) limit0 false w) as [rest Hrest].
  exists rest. rewrite Hrest. unfold initial_state.
  replace (PyStr.contains "?"
             ("rest/api/user/memberof?" ++ (if cloud then "accountId" else "key")
                ++ "=" ++ Quote.quote user_id))
    with true; [reflexivity |].
  symmetry.
  apply (contains_app "?" "rest/api/user/memberof"
           ((if cloud then "accountId" else "key") ++ "=" ++ Quote.quote user_id)).
Qed.

End GroupUrls.

(* ------------------------------------------------------------------ *)
(** ** Set-up, beyond the validation call *)

Lemma client_config_fields
      (credentials : list (string * string)) (is_cloud : bool) (wiki_base : string)
      (retries seconds : Z) (flag : option bool) (cfg : ClientConfig) :
  client_config credentials is_cloud wiki_base retries seconds flag = inr cfg ->
  max_backoff_retries cfg = retries
  /\ max_backoff_seconds cfg = seconds
  /\ cloud cfg = flag
  /\ (if is_cloud
      then username cfg = inr_value (subscript "confluence_username" credentials)
           /\ password cfg = inr_value (subscript "confluence_access_token" credentials)
           /\ token cfg = None
      else username cfg = None
           /\ password cfg = None
           /\ token cfg = inr_value (subscript "confluence_access_token" credentials)).
Proof.
  unfold client_config, option_map_result, inr_value, raise, ret.
  destruct is_cloud.
  - destruct (subscript "confluence_username" credentials); [discriminate |].
    destruct (subscript "confluence_access_token" credentials); [discriminate |].
    cbn [negb]. intros [= <-]. repeat split.
  - cbn [negb].
    destruct (subscript "confluence_access_token" credentials); [discriminate |].
    intros [= <-]. repeat split.
Qed.

Section SetupMore.
Context {World : Type} {api : SpaceApi World}.

(** X24. A credential that is missing is reported as a configuration
    error naming the key, before any call is made: on cloud the user name
    is looked up first, then the access token; a data center needs the
    access token only. *)
Theorem missing_credential_is_a_configuration_error
        (credentials : list (string * string)) (is_cloud : bool) (wiki_base : string)
        (w : World) :
  (is_cloud = true -> subscript "confluence_username" credentials
                      = inl (KeyError "confluence_username") ->
   build_confluence_client credentials is_cloud wiki_base w
   = (inl (ConnectorValidationError "'confluence_username'"), w))
  /\ (subscript "confluence_access_token" credentials
      = inl (KeyError "confluence_access_token") ->
      (is_cloud = true -> exists u, subscript "confluence_username" credentials = inr u) ->
      build_confluence_client credentials is_cloud wiki_base w
      = (inl (ConnectorValidationError "'confluence_access_token'"), w)).
Proof.
  unfold build_confluence_client, _validate_connector_configuration, client_config,
    option_map_result, raise, ret.
  split.
  - intros -> Hname. now rewrite Hname.
  - intros Htoken Hname. destruct is_cloud.
    + destruct (Hname eq_refl) as [u Hu]. now rewrite Hu, Htoken.
    + cbn [negb]. now rewrite Htoken.
Qed.

(** X25. A production client comes out only after the one validation
    call, made with the client of 6 retries, returned a truthy value; it
    is then built with 10 retries of up to 60 seconds. A data center
    client is given the token and never a user name or password; a cloud
    client is given user name and password and no token. *)
Theorem production_client_follows_validation
        (credentials : list (string * string)) (is_cloud : bool) (wiki_base : string)
        (w w1 : World) (cfg : ClientConfig) :
  build_confluence_client credentials is_cloud wiki_base w = (inr cfg, w1) ->
  (exists minimal spaces,
      client_config credentials is_cloud wiki_base 6 10 None = inr minimal
      /\ get_all_spaces minimal 1 w = (inr spaces, w1)
      /\ json_truthy spaces = true)
  /\ max_backoff_retries cfg = 10
  /\ max_backoff_seconds cfg = 60
  /\ cloud cfg = Some is_cloud
  /\ (if is_cloud
      then token cfg = None /\ username cfg <> None /\ password cfg <> None
      else username cfg = None /\ password cfg = None /\ token cfg <> None).
Proof.
  unfold build_confluence_client, _validate_connector_configuration.
  destruct (client_config credentials is_cloud wiki_base 6 10 None)
    as [e | minimal] eqn:Hminimal; [discriminate |].
  destruct (get_all_spaces minimal 1 w) as [[e | spaces] w2] eqn:Hcall; [discriminate |].
  destruct (json_truthy spaces) eqn:Htruthy; cbn [negb]; [| discriminate].
  intros [= Hcfg <-].
  split; [now exists minimal, spaces |].
  pose proof (client_config_fields _ _ _ _ _ _ _ Hcfg) as (Hr & Hs & Hc & Hfields).
  repeat split; try assumption.
  revert Hcfg Hfields. unfold client_config, option_map_result, inr_value, raise, ret.
  destruct is_cloud.
  - destruct (subscript "confluence_username" credentials); [discriminate |].
    destruct (subscript "confluence_access_token" credentials); [discriminate |].
    intros _ (-> & -> & ->). repeat split; discriminate.
  - cbn [negb].
    destruct (subscript "confluence_access_token" credentials); [discriminate |].
    intros _ (-> & -> & ->). repeat split; discriminate.
Qed.

End SetupMore.

Lemma production_client_follows_validation_witness :
  (exists minimal spaces,
      client_config [("confluence_access_token", "secret")] false
        "https://wiki.example.com/" 6 10 None = inr minimal
      /\ get_all_spaces (SpaceApi := fixed_spaces (inr (JDict [("results", JList [JNum 1])])))
           minimal 1 0%nat
         = (inr spaces, 1%nat)
      /\ json_truthy spaces = true)
  /\ max_backoff_retries
       (mkClientConfig "latest" "https://wiki.example.com" None None (Some "secret")
          true 10 60 (Some false)) = 10
  /\ max_backoff_seconds
       (mkClientConfig "latest" "https://wiki.example.com" None None (Some "secret")
          true 10 60 (Some false)) = 60
  /\ cloud (mkClientConfig "latest" "https://wiki.example.com" None None (Some "secret")
              true 10 60 (Some false)) = Some false
  /\ (username (mkClientConfig "latest" "https://wiki.example.com" None None
                  (Some "secret") true 10 60 (Some false)) = None
      /\ password (mkClientConfig "latest" "https://wiki.example.com" None None
                     (Some "secret") true 10 60 (Some false)) = None
      /\ token (mkClientConfig "latest" "https://wiki.example.com" None None
                  (Some "secret") true 10 60 (Some false)) <> None).
Proof.
  exact (production_client_follows_validation
           (api := fixed_spaces (inr (JDict [("results", JList [JNum 1])])))
           [("confluence_access_token", "secret")] false "https://wiki.example.com/"
           0%nat 1%nat _ eq_refl).
Defined.

(* ------------------------------------------------------------------ *)
(** ** Retry wrapper: where attempts start, the deadline, the last wait *)

Section AttemptStartFacts.
Context {World : Type} {clock : Clock World} {A : Type}.
Variable confluence_call : World -> Result A * World.

Lemma Qltb_within (a b : Q) : (b <= a)%Q -> Qltb a b = false.
Proof.
  intros Hle. unfold Qltb.
  destruct (Qle_bool b a) eqn:Hb; [reflexivity |].
  apply Qle_bool_iff in Hle. congruence.
Qed.

Lemma Qltb_late (a b : Q) : (a < b)%Q -> Qltb a b = true.
Proof.
  intros Hlt. unfold Qltb.
  destruct (Qle_bool b a) eqn:Hb; [| reflexivity].
  apply Qle_bool_iff in Hb. exfalso. exact (Qlt_not_le _ _ Hlt Hb).
Qed.

(** Once the loop would start an iteration past the deadline, the run ends
    with the timeout error, and no later than that iteration. *)
Lemma late_start_times_out (fuel : nat) (timeout_at : Q) :
  forall (k attempt n : nat) (w wk : World),
    (k < n)%nat ->
    attempt_start confluence_call fuel attempt k w = Some wk ->
    (timeout_at < monotonic wk)%Q ->
    let run := retry_loop confluence_call fuel timeout_at (seq attempt n) w in
    outcome run = Raised timeout_error /\ (List.length (attempts run) <= k)%nat.
Proof.
  induction k as [| k IH]; intros attempt n w wk Hk Hstart Hlate;
    destruct n as [| n]; try lia; cbn [seq].
  - injection Hstart as <-.
    rewrite (retry_loop_timeout confluence_call fuel timeout_at attempt _ w Hlate).
    split; [reflexivity | apply le_n].
  - cbn [attempt_start] in Hstart. cbn [retry_loop].
    destruct (Qltb timeout_at (monotonic w)); [split; [reflexivity | apply Nat.le_0_l] |].
    destruct (confluence_call w) as [r w1].
    destruct r as [[response | | | | | | | |] | v]; try discriminate Hstart.
    + destruct (_handle_http_error response attempt (monotonic w1)) as [e | delay_until];
        [discriminate Hstart |].
      destruct (sleep_until fuel delay_until w1) as [w2 |]; [| discriminate Hstart].
      destruct (IH (S attempt) n w2 wk ltac:(lia) Hstart Hlate) as [Hout Hlen].
      cbn [logged outcome attempts List.length]. split; [exact Hout | lia].
    + destruct (Nat.eqb attempt _); [discriminate Hstart |].
      destruct (IH (S attempt) n (sleep 5 w1) wk ltac:(lia) Hstart Hlate) as [Hout Hlen].
      cbn [logged outcome attempts List.length]. split; [exact Hout | lia].
Qed.

(** An iteration the loop gets to within the deadline, as every one before
    it, makes its call: the call is the run's attempt of that index. *)
Lemma timely_start_is_attempted (fuel : nat) (timeout_at : Q) :
  forall (k attempt n : nat) (w wk : World),
    (k < n)%nat ->
    attempt_start confluence_call fuel attempt k w = Some wk ->
    (forall (j : nat) (wj : World),
        (j <= k)%nat ->
        attempt_start confluence_call fuel attempt j w = Some wj ->
        (monotonic wj <= timeout_at)%Q) ->
    nth_error (attempts (retry_loop confluence_call fuel timeout_at (seq attempt n) w)) k
    = Some (fst (confluence_call wk)).
Proof.
  induction k as [| k IH]; intros attempt n w wk Hk Hstart Hbudget;
    destruct n as [| n]; try lia; cbn [seq retry_loop];
    rewrite (Qltb_within timeout_at (monotonic w)
               (Hbudget O w (Nat.le_0_l _) eq_refl)).
  - injection Hstart as <-.
    destruct (confluence_call w) as [r w1]. reflexivity.
  - cbn [attempt_start] in Hstart.
    assert (Hstep : forall j wj,
               attempt_start confluence_call fuel attempt (S j) w = Some wj ->
               (monotonic wj <= timeout_at)%Q \/ (k < j)%nat).
    { intros j wj Hj. destruct (Nat.le_gt_cases j k) as [Hle | Hgt]; [left | right; exact Hgt].
      apply (Hbudget (S j) wj ltac:(lia) Hj). }
    cbn [attempt_start] in Hstep.
    destruct (confluence_call w) as [r w1].
    destruct r as [[response | | | | | | | |] | v]; try discriminate Hstart.
    + destruct (_handle_http_error response attempt (monotonic w1)) as [e | delay_until];
        [discriminate Hstart |].
      destruct (sleep_until fuel delay_until w1) as [w2 |]; [| discriminate Hstart].
      cbn [logged attempts nth_error].
      apply (IH (S attempt) n w2 wk ltac:(lia) Hstart).
      intros j wj Hj Hstartj.
      destruct (Hstep j wj Hstartj) as [Hok | Hgt]; [exact Hok | lia].
    + destruct (Nat.eqb attempt _); [discriminate Hstart |].
      cbn [logged attempts nth_error].
      apply (IH (S attempt) n (sleep 5 w1) wk ltac:(lia) Hstart).
      intros j wj Hj Hstartj.
      destruct (Hstep j wj Hstartj) as [Hok | Hgt]; [exact Hok | lia].
Qed.


Hypothesis sleep_advances :
  forall (seconds : Z) (w : World),
    (monotonic w + inject_Z seconds <= monotonic (sleep seconds w))%Q.

(** When every iteration of the loop ends in a rate-limit failure, the
    last of them is followed by its wait, and the run ends where that wait
    ends. *)
Lemma last_wait_is_completed (fuel : nat) (timeout_at : Q) :
  (62 <= fuel)%nat ->
  forall (n attempt : nat) (w : World),
    let run := retry_loop confluence_call fuel timeout_at (seq attempt (S n)) w in
    List.length (attempts run) = S n ->
    forallb rate_limit_failure (attempts run) = true ->
    exists (wl : World) (response : Response) (w' : World) (delay_until : Z),
      attempt_start confluence_call fuel attempt n w = Some wl
      /\ confluence_call wl = (inl (HTTPError (Some response)), w')
      /\ nth_error (attempts run) n = Some (inl (HTTPError (Some response)))
      /\ _handle_http_error (Some response) (attempt + n) (monotonic w') = inr delay_until
      /\ sleep_until fuel delay_until w' = Some (final run).
Proof.
  intros Hfuel.
  induction n as [| n IH]; intros attempt w; cbn zeta; cbn [seq retry_loop attempt_start];
    (destruct (Qltb timeout_at (monotonic w)); [discriminate 1 |]);
    destruct (confluence_call w) as [r w1] eqn:Hcall;
    cbn [logged attempts final List.length forallb];
    intros Hlen Hall;
    apply andb_true_iff in Hall as [Hr Hall];
    (destruct r as [[[response |] | | | | | | | |] | v]; try discriminate Hr);
    destruct (rate_limit_failure_backs_off (A := A) response attempt (monotonic w1) Hr)
      as [delay_until Hhandle];
    rewrite Hhandle in *;
    destruct (backoff_sleep_ends sleep_advances _ _ _ fuel w1 Hfuel Hhandle) as [w2 Hslept];
    rewrite Hslept in *.
  - exists w, response, w1, delay_until.
    rewrite Nat.add_0_r. repeat split; assumption || reflexivity.
  - injection Hlen as Hlen.
    destruct (IH (S attempt) w2 Hlen Hall)
      as (wl & resp & w' & du & Hstart & Hlast & Hnth & Hdu & Hend).
    exists wl, resp, w', du.
    replace (attempt + S n)%nat with (S attempt + n)%nat by lia.
    repeat split; assumption.
Qed.

End AttemptStartFacts.

(** C4. The retry wrapper makes at most 5 attempts of the wrapped call.
    And in every run of the wrapper, for each of the 5 iterations: if the
    loop would start it with the clock more than 600 seconds past its
    reading at the invocation, the run ends with the timeout error and
    with no attempt of that index or later, whatever attempts are left;
    if that iteration and all before it start within the 600 seconds, its
    call is made. The timeout error is not the error of a rate-limit
    failure. *)
Theorem at_most_five_attempts_and_timeout
        {World : Type} {clock : Clock World} {A : Type}
        (confluence_call : World -> Result A * World) (fuel : nat) (w : World) :
  let run := wrapped_call confluence_call fuel w in
  (List.length (attempts run) <= 5)%nat
  /\ (forall (k : nat) (wk : World),
        (k < 5)%nat ->
        attempt_start confluence_call fuel 0 k w = Some wk ->
        (monotonic w + 600 < monotonic wk)%Q ->
        outcome run = Raised timeout_error
        /\ (List.length (attempts run) <= k)%nat)
  /\ (forall (k : nat) (wk : World),
        (k < 5)%nat ->
        attempt_start confluence_call fuel 0 k w = Some wk ->
        (forall (j : nat) (wj : World),
            (j <= k)%nat ->
            attempt_start confluence_call fuel 0 j w = Some wj ->
            (monotonic wj <= monotonic w + 600)%Q) ->
        nth_error (attempts run) k = Some (fst (confluence_call wk)))
  /\ forall response, timeout_error <> HTTPError response.
Proof.
  cbn zeta. unfold wrapped_call, range, MAX_RETRIES. repeat split.
  - apply (retry_loop_attempts confluence_call fuel _ (seq 0 5) w).
  - apply (late_start_times_out confluence_call fuel _ k 0%nat 5%nat w wk); assumption.
  - apply (late_start_times_out confluence_call fuel _ k 0%nat 5%nat w wk); assumption.
  - intros k wk Hk Hstart Hbudget.
    apply (timely_start_is_attempted confluence_call fuel _ k 0%nat 5%nat w wk);
      assumption.
  - discriminate.
Qed.

Lemma at_most_five_attempts_and_timeout_witness :
  attempt_start timed_call 62 0 1 (always_limited 700) = Some after_first_slow_attempt
  /\ (monotonic (always_limited 700) + 600 < monotonic after_first_slow_attempt)%Q
  /\ outcome (wrapped_call timed_call 62 (always_limited 700)) = Raised timeout_error
  /\ (List.length (attempts (wrapped_call timed_call 62 (always_limited 700))) <= 1)%nat
  /\ nth_error (attempts (wrapped_call timed_call 62 (always_limited 700))) 0
     = Some (fst (timed_call (always_limited 700))).
Proof.
  destruct (at_most_five_attempts_and_timeout timed_call 62 (always_limited 700))
    as (_ & Hlate & Hmade & _).
  split; [reflexivity |]. split; [reflexivity |].
  destruct (Hlate 1%nat after_first_slow_attempt) as [Hout Hlen];
    [lia | reflexivity | reflexivity |].
  split; [exact Hout |]. split; [exact Hlen |].
  apply (Hmade 0%nat (always_limited 700)); [lia | reflexivity |].
  intros j wj Hj. replace j with 0%nat by lia.
  intros [= <-]. simpl. discriminate.
Defined.

(** C10. If each of the 5 allowed attempts fails with a
    rate-limit-classified HTTP error, the wrapped call ends by falling
    through after the last backoff wait: it returns no value, and no error,
    the last rate-limit failure included, reaches the caller; and the run
    ends where the wait that follows the fifth failure ends, with the
    clock at or past the resume time computed for that failure. (Sleeping
    is taken to move the clock on by at least the time asked for; 62
    rounds of polling then cover any backoff wait.) *)
Theorem exhausted_rate_limit_returns_none
        {World : Type} {clock : Clock World} {A : Type}
        (confluence_call : World -> Result A * World) (fuel : nat) (w : World) :
  let run := wrapped_call confluence_call fuel w in
  (forall (seconds : Z) (w' : World),
      (monotonic w' + inject_Z seconds <= monotonic (sleep seconds w'))%Q) ->
  (62 <= fuel)%nat ->
  List.length (attempts run) = MAX_RETRIES ->
  forallb rate_limit_failure (attempts run) = true ->
  outcome run = ReturnedNone
  /\ (forall e, outcome run <> Raised e)
  /\ exists (w4 : World) (response : Response) (w5 : World) (delay_until : Z),
       attempt_start confluence_call fuel 0 4 w = Some w4
       /\ confluence_call w4 = (inl (HTTPError (Some response)), w5)
       /\ nth_error (attempts run) 4 = Some (inl (HTTPError (Some response)))
       /\ _handle_http_error (Some response) 4 (monotonic w5) = inr delay_until
       /\ sleep_until fuel delay_until w5 = Some (final run)
       /\ (inject_Z delay_until <= monotonic (final run))%Q.
Proof.
  cbn zeta. intros Hsleep Hfuel Hlen Hall.
  assert (Hnone : outcome (wrapped_call confluence_call fuel w) = ReturnedNone).
  { unfold wrapped_call in *.
    apply (all_rate_limited_returns_none confluence_call Hsleep fuel _ Hfuel
             (range MAX_RETRIES) w); assumption. }
  split; [exact Hnone |].
  split; [intros e; rewrite Hnone; discriminate |].
  unfold wrapped_call, range, MAX_RETRIES in *.
  destruct (last_wait_is_completed confluence_call Hsleep fuel _ Hfuel 4 0 w Hlen Hall)
    as (w4 & response & w5 & delay_until & Hstart & Hcall & Hnth & Hhandle & Hend).
  exists w4, response, w5, delay_until.
  repeat (split; [assumption |]).
  exact (sleep_until_reaches delay_until fuel w5 _ Hend).
Qed.

Lemma exhausted_rate_limit_returns_none_witness :
  outcome (wrapped_call timed_call 62 (always_limited 1)) = ReturnedNone
  /\ (forall e, outcome (wrapped_call timed_call 62 (always_limited 1)) <> Raised e)
  /\ exists (w4 : Timed unit) (response : Response) (w5 : Timed unit) (delay_until : Z),
       attempt_start timed_call 62 0 4 (always_limited 1) = Some w4
       /\ timed_call w4 = (inl (HTTPError (Some response)), w5)
       /\ nth_error (attempts (wrapped_call timed_call 62 (always_limited 1))) 4
          = Some (inl (HTTPError (Some response)))
       /\ _handle_http_error (Some response) 4 (monotonic w5) = inr delay_until
       /\ sleep_until 62 delay_until w5
          = Some (final (wrapped_call timed_call 62 (always_limited 1)))
       /\ (inject_Z delay_until
           <= monotonic (final (wrapped_call timed_call 62 (always_limited 1))))%Q.
Proof.
  apply (exhausted_rate_limit_returns_none timed_call 62 (always_limited 1)).
  - intros seconds w'. simpl. apply Qle_refl.
  - apply le_n.
  - reflexivity.
  - reflexivity.
Defined.

(** X2. Whatever the header says and however many attempts were made, the
    delay of a backoff is at least 2 and at most 60 seconds. *)
Theorem backoff_delay_within_bounds
        (response : option Response) (attempt : nat) (delay : Z) :
  backoff_delay response attempt = inr delay ->
  2 <= delay <= 60.
Proof.
  intros Hdelay.
  pose proof (backoff_delay_at_least response attempt delay Hdelay) as Hlow.
  pose proof (backoff_delay_bounded response attempt delay Hdelay) as Hhigh.
  unfold MIN_DELAY in Hlow. unfold MAX_DELAY in Hhigh. lia.
Qed.

Lemma backoff_delay_within_bounds_witness :
  2 <= 60 <= 60.
Proof.
  apply (backoff_delay_within_bounds (Some (too_many_requests (Some "75"))) 0 60).
  reflexivity.
Defined.


(* ------------------------------------------------------------------ *)
(** ** Cursor-paginating fetcher: the limit below its minimum *)

(** C6. Started with the default limit and answered with HTTP 500 each
    time, the fetcher halves the limit five times: the guard lets 62
    through because it exceeds 50, and the half of it is not brought back
    up to the minimum. The sixth request is sent with a limit of 31, in
    the loop's state and in the URL alike, and the error of that request
    ends the retrieval. *)
Theorem default_limit_is_halved_below_minimum :
  let run := _paginate_url 10 "rest/api/content/search?cql=type=page" None false
               (repeat (inr (error_page 500)) 6) in
  requests run
  = [mkPageState "rest/api/content/search?cql=type=page&limit=1000" 1000;
     mkPageState "rest/api/content/search?cql=type=page&limit=500" 500;
     mkPageState "rest/api/content/search?cql=type=page&limit=250" 250;
     mkPageState "rest/api/content/search?cql=type=page&limit=125" 125;
     mkPageState "rest/api/content/search?cql=type=page&limit=62" 62;
     mkPageState "rest/api/content/search?cql=type=page&limit=31" 31]
  /\ 31 < _MINIMUM_PAGINATION_LIMIT
  /\ yielded run = []
  /\ ending run = Failed (HTTPError (Some (error_page 500))).
Proof.
  repeat split; reflexivity.
Qed.
(* ------------------------------------------------------------------ *)
(** ** Nested-expansion resolver: what a walk may change *)

Lemma Forall2_compose {X Y Z' : Type} (R : X -> Y -> Prop) (S' : Y -> Z' -> Prop)
      (T : X -> Z' -> Prop) :
  (forall x y z, R x y -> S' y z -> T x z) ->
  forall l1 l2 l3, Forall2 R l1 l2 -> Forall2 S' l2 l3 -> Forall2 T l1 l3.
Proof.
  intros Hstep l1 l2 l3 H12. revert l3.
  induction H12 as [| x y l1 l2 Hxy _ IH]; intros l3 H23; inversion H23; subst;
    constructor; eauto.
Qed.

Lemma Forall2_In_left {X Y : Type} (R : X -> Y -> Prop) (l : list X) (l' : list Y) (x : X) :
  Forall2 R l l' -> In x l -> exists y, In y l' /\ R x y.
Proof.
  induction 1 as [| a b l l' Hab _ IH]; intros Hin; [contradiction |].
  destruct Hin as [-> | Hin].
  - exists b. split; [now left | exact Hab].
  - destruct (IH Hin) as (y & Hy & Hxy). exists y. split; [now right | exact Hxy].
Qed.

(** Writing the list under "results" leaves every other entry alone. *)
Lemma dict_set_related (results new : list Json) :
  forall fields : list (string * Json),
    dict_get "results" fields = Some (JList results) ->
    Forall2 (fun kv kv1 =>
               kv1 = kv
               \/ (kv = ("results", JList results) /\ kv1 = ("results", JList new)))
            fields (dict_set "results" (JList new) fields).
Proof.
  induction fields as [| [k v] rest IH]; [discriminate |].
  cbn [dict_get dict_set].
  destruct (String.eqb k "results") eqn:Hk.
  - intros [= ->]. apply String.eqb_eq in Hk as ->.
    constructor; [now right |].
    clear. induction rest; constructor; auto.
  - intros Hget. constructor; [now left | exact (IH Hget)].
Qed.

Lemma has_next_link_items (items : list Json) :
  has_next_link (JList items) = existsb has_next_link items.
Proof.
  cbn [has_next_link]. induction items as [| v rest IH]; [reflexivity |].
  cbn [existsb]. now rewrite IH.
Qed.

Lemma has_next_link_fields (fields : list (string * Json)) :
  has_next_link (JDict fields)
  = match next_link fields with
    | inr next_url => opt_truthy next_url
    | inl _ => false
    end
    || existsb (fun kv => has_next_link (snd kv)) fields.
Proof.
  cbn [has_next_link]. f_equal.
  induction fields as [| [k v] rest IH]; [reflexivity |].
  cbn [existsb snd]. now rewrite IH.
Qed.

(** Related values are both falsy or both truthy. *)
Lemma extends_truthy (v v' : Json) :
  extends v v' -> json_truthy v' = json_truthy v.
Proof.
  destruct 1 as [| | | | items items' Hitems | fields fields' Hfields]; try reflexivity.
  - destruct Hitems; reflexivity.
  - destruct Hfields; reflexivity.
Qed.

(** Related mappings have related entries under every key. *)
Lemma extends_entries_get (key : string) :
  forall (fields fields' : list (string * Json)) (v : Json),
    Forall2 extends_entry fields fields' ->
    dict_get key fields = Some v ->
    exists v', dict_get key fields' = Some v' /\ extends_entry (key, v) (key, v').
Proof.
  induction 1 as [| [k x] [k' x'] rest rest' Hentry _ IH]; [discriminate |].
  assert (Hkeys : k' = k) by (inversion Hentry; reflexivity). subst k'.
  cbn [dict_get]. destruct (String.eqb k key) eqn:Hk.
  - intros [= <-]. apply String.eqb_eq in Hk as <-. now exists x'.
  - exact IH.
Qed.

Lemma extends_entries_keys (fields fields' : list (string * Json)) :
  Forall2 extends_entry fields fields' -> map fst fields' = map fst fields.
Proof.
  induction 1 as [| kv kv' rest rest' Hentry _ IH]; [reflexivity |].
  cbn [map]. rewrite IH. f_equal. now destruct Hentry.
Qed.

(** A link found among the items of a list is found among the related
    items, whatever is appended to them. *)
Lemma link_among_related_items (n : nat) (items kept more : list Json) :
  (forall v v', (depth v < n)%nat -> extends v v' ->
                has_next_link v = true -> has_next_link v' = true) ->
  Forall (fun v => (depth v < n)%nat) items ->
  Forall2 extends items kept ->
  existsb has_next_link items = true ->
  existsb has_next_link (kept ++ more) = true.
Proof.
  intros IH Hdepth Hrel Hsome.
  apply existsb_exists in Hsome as (v & Hin & Hv).
  destruct (Forall2_In_left _ _ _ _ Hrel Hin) as (v' & Hin' & Hvv').
  rewrite existsb_app. apply orb_true_iff. left.
  apply existsb_exists. exists v'. split; [exact Hin' |].
  rewrite Forall_forall in Hdepth. exact (IH v v' (Hdepth v Hin) Hvv' Hv).
Qed.

(** A record related to one with a continuation link has one too. *)
Lemma extends_keeps_links :
  forall (n : nat) (data data' : Json),
    (depth data < n)%nat ->
    extends data data' ->
    has_next_link data = true ->
    has_next_link data' = true.
Proof.
  induction n as [| n IH]; intros data data' Hdepth Hrel Hlink; [lia |].
  destruct Hrel as [| | | | items items' Hitems | fields fields' Hfields];
    try discriminate Hlink.
  - rewrite has_next_link_items in *.
    rewrite <- (app_nil_r items').
    apply (link_among_related_items n items items' []); auto.
    now apply depth_items.
  - rewrite has_next_link_fields in *.
    apply orb_true_iff. apply orb_true_iff in Hlink as [Hown | Hbelow].
    + left. unfold next_link in *.
      destruct (dict_get "_links" fields) as [[| | | | | links] |] eqn:Hlinks;
        try discriminate Hown.
      destruct (extends_entries_get "_links" _ _ _ Hfields Hlinks) as (v' & -> & Hentry).
      inversion Hentry as [k v0 v0' Hrel |]; subst.
      inversion Hrel as [| | | | | links0 links' Hrels]; subst.
      cbn [ret opt_truthy] in *.
      destruct (dict_get "next" links) as [next |] eqn:Hnext; [| discriminate Hown].
      destruct (extends_entries_get "next" _ _ _ Hrels Hnext) as (next' & -> & Hentry').
      inversion Hentry' as [k v0 v0' Hrel' |]; subst.
      cbn [opt_truthy] in *. now rewrite (extends_truthy _ _ Hrel').
    + right. apply existsb_exists in Hbelow as ([k v] & Hin & Hv). cbn [snd] in Hv.
      destruct (Forall2_In_left _ _ _ _ Hfields Hin) as ([k' v'] & Hin' & Hentry).
      apply existsb_exists. exists (k', v'). split; [exact Hin' |]. cbn [snd].
      pose proof (depth_fields fields n Hdepth) as Hdepths.
      rewrite Forall_forall in Hdepths. specialize (Hdepths (k, v) Hin). cbn [snd] in Hdepths.
      inversion Hentry as [k0 v0 v0' Hrel | items kept more Hkept]; subst.
      * exact (IH v v' ltac:(lia) Hrel Hv).
      * rewrite has_next_link_items in *.
        destruct n as [| m]; [lia |].
        apply (link_among_related_items m items kept more); auto.
        -- intros x x' Hx. apply IH. lia.
        -- now apply depth_items.
Qed.

Section ResolverExtends.
Context {World : Type} {transport : Transport World} {utils : UrlUtils}.

Lemma each_value_related (visit : Json -> World -> Eff World Json) :
  forall (fields fields' : list (string * Json)) (w w' : World),
    each_value visit fields w = Ok fields' w' ->
    Forall2 (fun kv kv' =>
               fst kv' = fst kv
               /\ exists wa wb, visit (snd kv) wa = Ok (snd kv') wb)
            fields fields'.
Proof.
  induction fields as [| [k v] rest IH]; intros fields' w w'; cbn [each_value bind].
  - intros [= <- _]. constructor.
  - destruct (visit v w) as [v' w1 | |] eqn:Hv; cbn [bind]; try discriminate.
    destruct (each_value visit rest w1) as [rest' w2 | |] eqn:Hrest; cbn [bind];
      try discriminate.
    intros [= <- _]. constructor; [| exact (IH rest' w1 w2 Hrest)].
    split; [reflexivity |]. now exists w, w1.
Qed.

Lemma each_item_related (visit : Json -> World -> Eff World Json) :
  forall (items items' : list Json) (w w' : World),
    each_item visit items w = Ok items' w' ->
    Forall2 (fun v v' => exists wa wb, visit v wa = Ok v' wb) items items'.
Proof.
  induction items as [| v rest IH]; intros items' w w'; cbn [each_item bind].
  - intros [= <- _]. constructor.
  - destruct (visit v w) as [v' w1 | |] eqn:Hv; cbn [bind]; try discriminate.
    destruct (each_item visit rest w1) as [rest' w2 | |] eqn:Hrest; cbn [bind];
      try discriminate.
    intros [= <- _]. constructor; [| exact (IH rest' w1 w2 Hrest)].
    now exists w, w1.
Qed.

(** The step before the values are visited changes nothing but the list
    under "results", and that by appending. *)
Lemma extension_related (fuel : nat) (next_url : option Json)
      (fields fields1 : list (string * Json)) (w w1 : World) :
  (if opt_truthy next_url && dict_has "results" fields
   then extend_results fuel next_url fields w
   else Ok fields w) = Ok fields1 w1 ->
  Forall2 (fun kv kv1 =>
             kv1 = kv
             \/ exists results fetched,
                 kv = ("results", JList results)
                 /\ kv1 = ("results", JList (results ++ fetched)))
          fields fields1.
Proof.
  destruct (opt_truthy next_url && dict_has "results" fields).
  - unfold extend_results.
    destruct (dict_get "results" fields) as [[| | | | results |] |] eqn:Hget;
      try discriminate.
    destruct next_url as [[| | | link | |] |]; try discriminate.
    destruct (ending (_paginate_url fuel link None false w)); try discriminate.
    intros [= <- _].
    eapply Forall2_impl; [| exact (dict_set_related results _ fields Hget)].
    intros kv kv1 [-> | [-> ->]]; [now left | right].
    now exists results, (yielded (_paginate_url fuel link None false w)).
  - intros [= <- _]. clear. induction fields; constructor; auto.
Qed.

(** What a walk returns is the record it was given, but for items
    appended to lists under "results". *)
Lemma walk_extends :
  forall (fuel : nat) (data data' : Json) (w w' : World),
    _traverse_and_update fuel data w = Ok data' w' ->
    extends data data'.
Proof.
  induction fuel as [| f IH]; intros data data' w w' Hwalk; [discriminate |].
  destruct data as [| b | n | s | items | fields];
    try (injection Hwalk as <- _; constructor).
  - cbn [_traverse_and_update] in Hwalk.
    destruct (each_item (_traverse_and_update f) items w) as [items' w1 | |] eqn:Hitems;
      cbn [bind] in Hwalk; try discriminate.
    injection Hwalk as <- _. constructor.
    apply each_item_related in Hitems.
    eapply Forall2_impl; [| exact Hitems].
    intros v v' (wa & wb & Hv). exact (IH v v' wa wb Hv).
  - apply walk_of_dict in Hwalk
      as (f' & next_url & fields1 & w1 & fields2 & [= <-] & _ & Hext & Hvalues & ->).
    constructor.
    apply extension_related in Hext. apply each_value_related in Hvalues.
    refine (Forall2_compose _ _ _ _ fields fields1 fields2 Hext Hvalues).
    intros [k v] [k1 v1] [k2 v2] Hfirst [Hkey (wa & wb & Hv)].
    cbn [fst snd] in *. subst k2. apply IH in Hv.
    destruct Hfirst as [[= -> ->] | (results & fetched & [= -> ->] & [= -> ->])].
    + now constructor.
    + inversion Hv as [| | | | items0 items2 Hitems |]; subst.
      apply Forall2_app_inv_l in Hitems as (kept & more & Hkept & _ & ->).
      now constructor.
Qed.

(** C7, as the code has it. On a record where every "_links" entry is a
    mapping and no mapping has both a non-empty continuation link and a
    "results" entry, the resolver changes nothing and makes no request:
    with fuel for the depth of the record it returns the record as it is,
    in the world as it is. And the resolver removes no continuation link:
    whenever the walk of a record that has a non-empty continuation link
    somewhere in it returns, the record it returns has one too. *)
Theorem settled_record_is_left_and_links_are_kept
        (fuel : nat) (data : Json) (w : World) :
  (settled data = true ->
   (depth data < fuel)%nat ->
   _traverse_and_update fuel data w = Ok data w)
  /\ (forall (data' : Json) (w' : World),
         _traverse_and_update fuel data w = Ok data' w' ->
         has_next_link data = true ->
         has_next_link data' = true).
Proof.
  split.
  - intros Hsettled Hdepth. now apply settled_walk.
  - intros data' w' Hwalk Hlink.
    apply (extends_keeps_links (S (depth data)) data data'); [lia | | exact Hlink].
    exact (walk_extends fuel data data' w w' Hwalk).
Qed.

(** X17. The resolver changes a record only by making "results" lists
    longer: what it returns is the record it was given but for items
    appended to lists under "results", at any depth. So a mapping comes
    back with the same keys in the same order, a list with the same number
    of items, and a scalar as it was, without a request being made for
    it. *)
Theorem resolver_only_extends_results
        (fuel : nat) (data data' : Json) (w w' : World) :
  _traverse_and_update fuel data w = Ok data' w' ->
  extends data data'
  /\ match data with
     | JDict fields =>
         exists fields', data' = JDict fields' /\ map fst fields' = map fst fields
     | JList items =>
         exists items', data' = JList items' /\ List.length items' = List.length items
     | _ => data' = data /\ w' = w
     end.
Proof.
  intros Hwalk.
  pose proof (walk_extends fuel data data' w w' Hwalk) as Hrel.
  split; [exact Hrel |].
  destruct Hrel as [| | | | items items' Hitems | fields fields' Hfields];
    try (destruct fuel; [discriminate | injection Hwalk; intros; subst; now split]).
  - exists items'. split; [reflexivity |]. symmetry. exact (Forall2_length Hitems).
  - exists fields'. split; [reflexivity |]. now apply extends_entries_keys.
Qed.

(** X18. The resolver never loses a record: the list under "results" of
    a mapping holds afterwards, in the same places, the records it held
    before, each changed only as the resolver changes a record, followed
    by whatever was fetched. *)
Theorem resolver_keeps_every_record
        (fuel : nat) (fields fields' : list (string * Json)) (w w' : World)
        (results : list Json) :
  _traverse_and_update fuel (JDict fields) w = Ok (JDict fields') w' ->
  dict_get "results" fields = Some (JList results) ->
  exists kept more,
    dict_get "results" fields' = Some (JList (kept ++ more))
    /\ Forall2 extends results kept.
Proof.
  intros Hwalk Hget.
  pose proof (walk_extends fuel _ _ w w' Hwalk) as Hrel.
  inversion Hrel as [| | | | | fields0 fields0' Hfields]; subst.
  destruct (extends_entries_get "results" _ _ _ Hfields Hget) as (v' & Hget' & Hentry).
  inversion Hentry as [k v0 v0' Hlist | items kept more Hkept]; subst.
  - inversion Hlist as [| | | | items0 items' Hitems |]; subst.
    exists items', []. rewrite app_nil_r. now split.
  - exists kept, more. now split.
Qed.

End ResolverExtends.

Lemma settled_record_is_left_and_links_are_kept_witness :
  _traverse_and_update 4
    (JDict [("results", JList [JDict [("id", JStr "1")]; JDict [("id", JStr "2")]]);
            ("_links", JDict [("self", JStr "rest/api/content/7/child/comment")])])
    [inr last_comment_page]
  = Ok (JDict [("results", JList [JDict [("id", JStr "1")]; JDict [("id", JStr "2")]]);
               ("_links", JDict [("self", JStr "rest/api/content/7/child/comment")])])
       [inr last_comment_page]
  /\ has_next_link
       (JDict [("results", JList [JDict [("id", JStr "1")]; JDict [("id", JStr "2")]]);
               ("_links",
                JDict [("next", JStr "rest/api/content/7/child/comment?start=1")])])
     = true.
Proof.
  destruct (settled_record_is_left_and_links_are_kept (transport := scripted) 4
              (JDict [("results", JList [JDict [("id", JStr "1")]; JDict [("id", JStr "2")]]);
                      ("_links", JDict [("self", JStr "rest/api/content/7/child/comment")])])
              [inr last_comment_page]) as [Hleft _].
  destruct (settled_record_is_left_and_links_are_kept (transport := scripted) 5
              truncated_record [inr last_comment_page]) as [_ Hkept].
  split.
  - apply Hleft; [reflexivity | simpl; lia].
  - apply (Hkept _ []); reflexivity.
Defined.

Lemma resolver_only_extends_results_witness :
  extends truncated_record
    (JDict [("results", JList [JDict [("id", JStr "1")]; JDict [("id", JStr "2")]]);
            ("_links", JDict [("next", JStr "rest/api/content/7/child/comment?start=1")])])
  /\ exists fields',
      JDict [("results", JList [JDict [("id", JStr "1")]; JDict [("id", JStr "2")]]);
             ("_links", JDict [("next", JStr "rest/api/content/7/child/comment?start=1")])]
      = JDict fields'
      /\ map fst fields' = ["results"; "_links"].
Proof.
  exact (resolver_only_extends_results (transport := scripted) 5 truncated_record _
           [inr last_comment_page] [] eq_refl).
Defined.

Lemma resolver_keeps_every_record_witness :
  exists kept more,
    dict_get "results"
      [("results", JList [JDict [("id", JStr "1")]; JDict [("id", JStr "2")]]);
       ("_links", JDict [("next", JStr "rest/api/content/7/child/comment?start=1")])]
    = Some (JList (kept ++ more))
    /\ Forall2 extends [JDict [("id", JStr "1")]] kept.
Proof.
  apply (resolver_keeps_every_record (transport := scripted) 5
           [("results", JList [JDict [("id", JStr "1")]]);
            ("_links", JDict [("next", JStr "rest/api/content/7/child/comment?start=1")])]
           _ [inr last_comment_page] [] [JDict [("id", JStr "1")]]);
    reflexivity.
Defined.
